(** * User Notes database (plugins/UserNotes/db.c)

    A shallow embedding of the object database of the User Notes plugin:
    the record type [DB_OBJECT], the hashtable [ObjectDb] keyed by
    (tag, name), the operations [FindDbObject], [CreateDbObject] and
    [DeleteDbObject], and the XML codec [LoadDb] / [SaveDb].

    Conventions of the embedding.
    - C integers are [Z] with the wrap-around of every cast written out
      ([to_ULONG], [to_ULONG64]).
    - Text is a [string]; the conversions between the UTF-16 form held in
      memory and the UTF-8 form of the document act at the file boundary
      and are the identity on this representation.
    - The global [ObjectDb] is threaded through every operation as an
      explicit state.  A [PDB_OBJECT] is the position of the record in the
      entry array of the table; an assignment [object->Field = v] is a
      write to the table at that position.
    - The parsed document is an [mxml_node_t] tree; the file system and the
      byte-level parser are represented by their results ([DB_FILE]). *)

From Stdlib Require Import ZArith List String Ascii Bool Lia Permutation.
Import ListNotations.

Local Open Scope Z_scope.

Set Warnings "-register-all".

(** ** Machine integers *)

Definition ULONG_MAX : Z := 4294967295.
Definition ULONG64_MAX : Z := 18446744073709551615.

Definition to_ULONG (v : Z) : Z := v mod 4294967296.
Definition to_ULONG64 (v : Z) : Z := v mod 18446744073709551616.

Definition is_ULONG (v : Z) : Prop := 0 <= v <= ULONG_MAX.
Definition is_ULONG64 (v : Z) : Prop := 0 <= v <= ULONG64_MAX.

(** ** Status codes *)

Definition NTSTATUS := Z.
Definition STATUS_SUCCESS : NTSTATUS := 0.
(* 0xC0000102 read as a signed 32-bit value *)
Definition STATUS_FILE_CORRUPT_ERROR : NTSTATUS := -1073741566.
Definition NT_SUCCESS (status : NTSTATUS) : bool := 0 <=? status.

(** ** Text helpers of the base library *)

Definition char_code (c : ascii) : Z := Z.of_N (N_of_ascii c).

Definition RtlUpcaseUnicodeChar (c : ascii) : ascii :=
  if (97 <=? char_code c) && (char_code c <=? 122)
  then ascii_of_N (N_of_ascii c - 32)
  else c.

Definition tolower (c : ascii) : ascii :=
  if (65 <=? char_code c) && (char_code c <=? 90)
  then ascii_of_N (N_of_ascii c + 32)
  else c.

Fixpoint map_chars (f : ascii -> ascii) (s : string) : string :=
  match s with
  | EmptyString => EmptyString
  | String c r => String (f c) (map_chars f r)
  end.

(** Character-wise comparison; with [IgnoreCase] two characters that
    differ are compared again after folding with [fold]. *)
Fixpoint equal_chars (fold : ascii -> ascii) (IgnoreCase : bool)
         (s1 s2 : string) : bool :=
  match s1, s2 with
  | EmptyString, EmptyString => true
  | String c1 r1, String c2 r2 =>
      (Ascii.eqb c1 c2 || (IgnoreCase && Ascii.eqb (fold c1) (fold c2)))
      && equal_chars fold IgnoreCase r1 r2
  | _, _ => false
  end.

(** Modelled from the spec: PhEqualStringRef of the base library is not in
    db.c.  Its third argument is the ignore-case flag: with TRUE the
    comparison is the "case-insensitive name match" of the key equality. *)
Definition PhEqualStringRef (s1 s2 : string) (IgnoreCase : bool) : bool :=
  equal_chars RtlUpcaseUnicodeChar IgnoreCase s1 s2.

(** Modelled from the spec: PhEqualBytesZ of the base library is not in
    db.c.  It compares two zero-terminated byte strings.  Its third
    argument is the ignore-case flag of [PhEqualStringRef] and
    [PhHashStringRef], in the same position; db.c passes TRUE to the
    three of them, and for the key the spec reads that TRUE as
    "case-insensitive". *)
Definition PhEqualBytesZ (s1 s2 : string) (IgnoreCase : bool) : bool :=
  equal_chars tolower IgnoreCase s1 s2.

(** Modelled from the spec: PhHashStringRef of the base library is not in
    db.c.  With the ignore-case flag it is "a case-insensitive hash of
    name": every character is upcased before it is mixed into a 32-bit
    multiplicative hash. *)
Fixpoint hash_chars (IgnoreCase : bool) (s : string) (hash : Z) : Z :=
  match s with
  | EmptyString => hash
  | String c r =>
      let c' := if IgnoreCase then RtlUpcaseUnicodeChar c else c in
      hash_chars IgnoreCase r
                 (to_ULONG (Z.lxor hash (char_code c') * 16777619))
  end.

Definition PhHashStringRef (s : string) (IgnoreCase : bool) : Z :=
  hash_chars IgnoreCase s 0.

(** ** Decimal text *)

Definition is_digit (c : ascii) : bool :=
  (48 <=? char_code c) && (char_code c <=? 57).

Definition digit_value (c : ascii) : Z := char_code c - 48.

Definition digit_char (d : Z) : ascii := ascii_of_N (Z.to_N (48 + d)).

Fixpoint parse_digits (Base : Z) (s : string) (acc : Z) : option Z :=
  match s with
  | EmptyString => Some acc
  | String c r =>
      if is_digit c && (digit_value c <? Base)
      then parse_digits Base r (acc * Base + digit_value c)
      else None
  end.

(** Modelled from the spec: PhStringToInteger64 of the base library is not
    in db.c.  "Integer parsing uses base 10, unsigned, no fractional or
    signed forms; out-of-range or non-numeric text is treated as 0": the
    function always stores into its out parameter [Integer], whatever it
    held before the call, the value of the text when it is a run of digits
    that fits 64 bits and 0 otherwise.  The result is the new content of
    the out parameter. *)
Definition PhStringToInteger64 (String : string) (Base : Z) (Integer : Z)
  : Z :=
  match parse_digits Base String 0 with
  | Some v => if v <=? ULONG64_MAX then v else 0
  | None => 0
  end.

Fixpoint format_digits (fuel : nat) (v : Z) (acc : string) : string :=
  match fuel with
  | O => acc
  | S fuel' =>
      let acc' := String (digit_char (v mod 10)) acc in
      if v / 10 =? 0 then acc' else format_digits fuel' (v / 10) acc'
  end.

(** [FormatValueToUtf8] prints an unsigned 64-bit value in decimal
    (PhInitFormatI64U, with PhIntegerToString64 in base 10 as fallback);
    twenty digits are enough for every 64-bit value. *)
Definition FormatValueToUtf8 (Value : Z) : string :=
  format_digits 20 Value EmptyString.

Definition StringRefToUtf8 (Value : string) : string := Value.
Definition PhConvertUtf8ToUtf16 (Value : string) : string := Value.

(** ** Records *)

Record DB_OBJECT := mkObject {
  Tag : Z;
  Name : string;
  Comment : string;
  PriorityClass : Z;
  IoPriorityPlusOne : Z;
  BackColor : Z;
  Collapse : bool;
  AffinityMask : Z
}.

(** [Key] is the string reference over the characters of [Name]. *)
Definition Key (o : DB_OBJECT) : string := Name o.

Definition set_Comment (c : string) (o : DB_OBJECT) : DB_OBJECT :=
  mkObject (Tag o) (Name o) c (PriorityClass o) (IoPriorityPlusOne o)
           (BackColor o) (Collapse o) (AffinityMask o).
Definition set_PriorityClass (v : Z) (o : DB_OBJECT) : DB_OBJECT :=
  mkObject (Tag o) (Name o) (Comment o) v (IoPriorityPlusOne o)
           (BackColor o) (Collapse o) (AffinityMask o).
Definition set_IoPriorityPlusOne (v : Z) (o : DB_OBJECT) : DB_OBJECT :=
  mkObject (Tag o) (Name o) (Comment o) (PriorityClass o) v
           (BackColor o) (Collapse o) (AffinityMask o).
Definition set_BackColor (v : Z) (o : DB_OBJECT) : DB_OBJECT :=
  mkObject (Tag o) (Name o) (Comment o) (PriorityClass o)
           (IoPriorityPlusOne o) v (Collapse o) (AffinityMask o).
Definition set_Collapse (b : bool) (o : DB_OBJECT) : DB_OBJECT :=
  mkObject (Tag o) (Name o) (Comment o) (PriorityClass o)
           (IoPriorityPlusOne o) (BackColor o) b (AffinityMask o).
Definition set_AffinityMask (v : Z) (o : DB_OBJECT) : DB_OBJECT :=
  mkObject (Tag o) (Name o) (Comment o) (PriorityClass o)
           (IoPriorityPlusOne o) (BackColor o) (Collapse o) v.

Definition ObjectDbEqualFunction (object1 object2 : DB_OBJECT) : bool :=
  (Tag object1 =? Tag object2)
  && PhEqualStringRef (Key object1) (Key object2) true.

Definition ObjectDbHashFunction (object : DB_OBJECT) : Z :=
  to_ULONG (Tag object + PhHashStringRef (Key object) true).

(** ** The hashtable *)

(** Modelled from the spec: the hashtable of the base library
    (PhCreateHashtable, PhFindEntryHashtable, PhAddEntryHashtableEx,
    PhRemoveEntryHashtable, PhEnumHashtable) is not in db.c.  The table
    keeps its entries in an array in insertion order; an entry belongs to
    the bucket its hash code selects, and a lookup walks the entries of
    the bucket of the looked-up hash code, comparing hash codes and then
    calling the equality function.  Adding with duplicate detection first
    looks the entry up and hands back the entry already there. *)
Record PH_HASHTABLE := mkTable {
  AllocatedBuckets : Z;
  Entries : list DB_OBJECT
}.

Definition PDB_OBJECT := nat.

Definition PhCreateHashtable (InitialCapacity : Z) : PH_HASHTABLE :=
  mkTable InitialCapacity [].

Definition PhpIndexFromHash (Hashtable : PH_HASHTABLE) (Hash : Z) : Z :=
  Hash mod AllocatedBuckets Hashtable.

Definition in_chain (Hashtable : PH_HASHTABLE) (hashCode : Z)
           (lookup entry : DB_OBJECT) : bool :=
  (PhpIndexFromHash Hashtable (ObjectDbHashFunction entry)
   =? PhpIndexFromHash Hashtable hashCode)
  && (ObjectDbHashFunction entry =? hashCode)
  && ObjectDbEqualFunction entry lookup.

Fixpoint PhpFindEntry (Hashtable : PH_HASHTABLE) (hashCode : Z)
         (lookup : DB_OBJECT) (index : nat) (entries : list DB_OBJECT)
  : option PDB_OBJECT :=
  match entries with
  | [] => None
  | entry :: rest =>
      if in_chain Hashtable hashCode lookup entry
      then Some index
      else PhpFindEntry Hashtable hashCode lookup (S index) rest
  end.

Definition PhFindEntryHashtable (Hashtable : PH_HASHTABLE)
           (Entry : DB_OBJECT) : option PDB_OBJECT :=
  PhpFindEntry Hashtable (ObjectDbHashFunction Entry) Entry O
               (Entries Hashtable).

Definition PhAddEntryHashtableEx (Hashtable : PH_HASHTABLE)
           (Entry : DB_OBJECT) : PH_HASHTABLE * PDB_OBJECT * bool :=
  match PhFindEntryHashtable Hashtable Entry with
  | Some realObject => (Hashtable, realObject, false)
  | None =>
      (mkTable (AllocatedBuckets Hashtable) (Entries Hashtable ++ [Entry]),
       List.length (Entries Hashtable), true)
  end.

Fixpoint remove_at {A : Type} (index : nat) (l : list A) : list A :=
  match l, index with
  | [], _ => []
  | _ :: rest, O => rest
  | x :: rest, S index' => x :: remove_at index' rest
  end.

Definition PhRemoveEntryHashtable (Hashtable : PH_HASHTABLE)
           (Entry : DB_OBJECT) : PH_HASHTABLE :=
  match PhFindEntryHashtable Hashtable Entry with
  | Some index =>
      mkTable (AllocatedBuckets Hashtable)
              (remove_at index (Entries Hashtable))
  | None => Hashtable
  end.

Definition PhEnumHashtable (Hashtable : PH_HASHTABLE) : list DB_OBJECT :=
  Entries Hashtable.

(** Reading and writing a record through its pointer. *)
Definition ObjectAt (Hashtable : PH_HASHTABLE) (object : PDB_OBJECT)
  : option DB_OBJECT :=
  nth_error (Entries Hashtable) object.

Fixpoint update_at {A : Type} (index : nat) (f : A -> A) (l : list A)
  : list A :=
  match l, index with
  | [], _ => []
  | x :: rest, O => f x :: rest
  | x :: rest, S index' => x :: update_at index' f rest
  end.

Definition Assign (object : PDB_OBJECT) (f : DB_OBJECT -> DB_OBJECT)
           (Hashtable : PH_HASHTABLE) : PH_HASHTABLE :=
  mkTable (AllocatedBuckets Hashtable)
          (update_at object f (Entries Hashtable)).

(** ** Store operations *)

Definition InitializeDb : PH_HASHTABLE := PhCreateHashtable 64.

Definition GetNumberOfDbObjects (ObjectDb : PH_HASHTABLE) : Z :=
  Z.of_nat (List.length (Entries ObjectDb)).

(** The stack object of [FindDbObject]: only [Tag] and [Key] are set and
    only they are read by the hash and equality functions. *)
Definition lookupObject (Tag : Z) (Name : string) : DB_OBJECT :=
  mkObject Tag Name EmptyString 0 0 0 false 0.

Definition FindDbObject (Tag : Z) (Name : string) (ObjectDb : PH_HASHTABLE)
  : option PDB_OBJECT :=
  PhFindEntryHashtable ObjectDb (lookupObject Tag Name).

Definition CreateDbObject (Tag : Z) (Name : string)
           (Comment : option string) (ObjectDb : PH_HASHTABLE)
  : PDB_OBJECT * PH_HASHTABLE :=
  (* PhAllocateZero, then Tag, Key and BackColor *)
  let object := mkObject Tag Name EmptyString 0 0 ULONG_MAX false 0 in
  let '(ObjectDb1, realObject, added) :=
    PhAddEntryHashtableEx ObjectDb object in
  if added then
    (realObject,
     Assign realObject
            (set_Comment (match Comment with
                          | Some c => c
                          | None => EmptyString
                          end))
            ObjectDb1)
  else
    (realObject,
     match Comment with
     | Some c => Assign realObject (set_Comment c) ObjectDb1
     | None => ObjectDb1
     end).

Definition DeleteDbObject (Object : PDB_OBJECT) (ObjectDb : PH_HASHTABLE)
  : PH_HASHTABLE :=
  match ObjectAt ObjectDb Object with
  | Some o => PhRemoveEntryHashtable ObjectDb o
  | None => ObjectDb
  end.

(** ** The document tree *)

Inductive mxml_type_t :=
| MXML_ELEMENT | MXML_INTEGER | MXML_OPAQUE | MXML_TEXT.

(** An attribute is a name with a value that may be NULL. *)
Definition mxml_attr_t : Type := string * option string.

Inductive mxml_node_t :=
| mxml_element (name : string) (attrs : list mxml_attr_t)
               (children : list mxml_node_t)
| mxml_integer (integer : Z)
| mxml_opaque (opaque : string)
| mxml_text (whitespace : bool) (text : string).

Definition mxmlGetType (node : mxml_node_t) : mxml_type_t :=
  match node with
  | mxml_element _ _ _ => MXML_ELEMENT
  | mxml_integer _ => MXML_INTEGER
  | mxml_opaque _ => MXML_OPAQUE
  | mxml_text _ _ => MXML_TEXT
  end.

Definition is_element (node : mxml_node_t) : bool :=
  match mxmlGetType node with MXML_ELEMENT => true | _ => false end.

Definition mxmlGetChildren (node : mxml_node_t) : list mxml_node_t :=
  match node with
  | mxml_element _ _ children => children
  | _ => []
  end.

Definition mxmlElementGetAttrs (node : mxml_node_t) : list mxml_attr_t :=
  match node with
  | mxml_element _ attrs _ => attrs
  | _ => []
  end.

Definition mxmlElementGetAttrCount (node : mxml_node_t) : Z :=
  Z.of_nat (List.length (mxmlElementGetAttrs node)).

(** The opaque value of the node, or of its first child. *)
Definition mxmlGetOpaque (node : mxml_node_t) : option string :=
  match node with
  | mxml_opaque opaque => Some opaque
  | mxml_element _ _ (mxml_opaque opaque :: _) => Some opaque
  | _ => None
  end.

(** Setting an attribute replaces the value of an attribute of that name
    and appends a new attribute otherwise. *)
Fixpoint mxmlElementSetAttr (attrs : list mxml_attr_t) (name value : string)
  : list mxml_attr_t :=
  match attrs with
  | [] => [(name, Some value)]
  | (n, v) :: rest =>
      if String.eqb n name then (n, Some value) :: rest
      else (n, v) :: mxmlElementSetAttr rest name value
  end.

(** ** Decoding *)

Definition GetOpaqueXmlNodeText (node : mxml_node_t) : string :=
  match mxmlGetOpaque node with
  | Some string => PhConvertUtf8ToUtf16 string
  | None => EmptyString
  end.

(** The string locals of one iteration of the element loop. *)
Record NODE_FIELDS := mkFields {
  f_tag : option string;
  f_name : option string;
  f_priorityClass : option string;
  f_ioPriorityPlusOne : option string;
  f_backColor : option string;
  f_collapse : option string;
  f_affinityMask : option string
}.

Definition no_fields : NODE_FIELDS :=
  mkFields None None None None None None None.

(** One iteration of the attribute loop. *)
Definition read_attr (fields : NODE_FIELDS) (attr : mxml_attr_t)
  : NODE_FIELDS :=
  let elementName := fst attr in
  match snd attr with
  | None => fields
  | Some elementValue =>
      let value := Some (PhConvertUtf8ToUtf16 elementValue) in
      if PhEqualBytesZ elementName "tag" true then
        mkFields value (f_name fields) (f_priorityClass fields)
                 (f_ioPriorityPlusOne fields) (f_backColor fields)
                 (f_collapse fields) (f_affinityMask fields)
      else if PhEqualBytesZ elementName "name" true then
        mkFields (f_tag fields) value (f_priorityClass fields)
                 (f_ioPriorityPlusOne fields) (f_backColor fields)
                 (f_collapse fields) (f_affinityMask fields)
      else if PhEqualBytesZ elementName "priorityclass" true then
        mkFields (f_tag fields) (f_name fields) value
                 (f_ioPriorityPlusOne fields) (f_backColor fields)
                 (f_collapse fields) (f_affinityMask fields)
      else if PhEqualBytesZ elementName "iopriorityplusone" true then
        mkFields (f_tag fields) (f_name fields) (f_priorityClass fields)
                 value (f_backColor fields)
                 (f_collapse fields) (f_affinityMask fields)
      else if PhEqualBytesZ elementName "backcolor" true then
        mkFields (f_tag fields) (f_name fields) (f_priorityClass fields)
                 (f_ioPriorityPlusOne fields) value
                 (f_collapse fields) (f_affinityMask fields)
      else if PhEqualBytesZ elementName "collapse" true then
        mkFields (f_tag fields) (f_name fields) (f_priorityClass fields)
                 (f_ioPriorityPlusOne fields) (f_backColor fields)
                 value (f_affinityMask fields)
      else if PhEqualBytesZ elementName "affinity" true then
        mkFields (f_tag fields) (f_name fields) (f_priorityClass fields)
                 (f_ioPriorityPlusOne fields) (f_backColor fields)
                 (f_collapse fields) value
      else fields
  end.

Definition read_attrs (currentNode : mxml_node_t) : NODE_FIELDS :=
  if 2 <=? mxmlElementGetAttrCount currentNode
  then fold_left read_attr (mxmlElementGetAttrs currentNode) no_fields
  else no_fields.

(** The body of the loop over the children of the top node. *)
Definition LoadDbNode (currentNode : mxml_node_t) (ObjectDb : PH_HASHTABLE)
  : PH_HASHTABLE :=
  let fields := read_attrs currentNode in
  let comment := GetOpaqueXmlNodeText currentNode in
  let '(object, ObjectDb) :=
    match f_tag fields, f_name fields with
    | Some tag, Some name =>
        let tagInteger := 0 in
        let priorityClassInteger := 0 in
        let ioPriorityPlusOneInteger := 0 in
        let tagInteger := PhStringToInteger64 tag 10 tagInteger in
        let priorityClassInteger :=
          match f_priorityClass fields with
          | Some priorityClass =>
              PhStringToInteger64 priorityClass 10 priorityClassInteger
          | None => priorityClassInteger
          end in
        let ioPriorityPlusOneInteger :=
          match f_ioPriorityPlusOne fields with
          | Some ioPriorityPlusOne =>
              PhStringToInteger64 ioPriorityPlusOne 10
                                  ioPriorityPlusOneInteger
          | None => ioPriorityPlusOneInteger
          end in
        let '(object, ObjectDb) :=
          CreateDbObject (to_ULONG tagInteger) name (Some comment)
                         ObjectDb in
        let ObjectDb :=
          Assign object (set_PriorityClass (to_ULONG priorityClassInteger))
                 ObjectDb in
        let ObjectDb :=
          Assign object
                 (set_IoPriorityPlusOne (to_ULONG ioPriorityPlusOneInteger))
                 ObjectDb in
        (Some object, ObjectDb)
    | _, _ => (None, ObjectDb)
    end in
  let ObjectDb :=
    match object, f_backColor fields with
    | Some object, Some backColor =>
        let backColorInteger := ULONG_MAX in
        let backColorInteger :=
          PhStringToInteger64 backColor 10 backColorInteger in
        Assign object (set_BackColor (to_ULONG backColorInteger)) ObjectDb
    | _, _ => ObjectDb
    end in
  let ObjectDb :=
    match object, f_collapse fields with
    | Some object, Some collapse =>
        let collapseInteger := 0 in
        let collapseInteger :=
          PhStringToInteger64 collapse 10 collapseInteger in
        Assign object (set_Collapse (negb (collapseInteger =? 0))) ObjectDb
    | _, _ => ObjectDb
    end in
  let ObjectDb :=
    match object, f_affinityMask fields with
    | Some object, Some affinityMask =>
        let affinityInteger := 0 in
        let affinityInteger :=
          PhStringToInteger64 affinityMask 10 affinityInteger in
        Assign object (set_AffinityMask (to_ULONG64 affinityInteger))
               ObjectDb
    | _, _ => ObjectDb
    end in
  ObjectDb.

Definition LoadDbNodes (nodes : list mxml_node_t) (ObjectDb : PH_HASHTABLE)
  : PH_HASHTABLE :=
  fold_left (fun db currentNode => LoadDbNode currentNode db) nodes ObjectDb.

(** What [LoadDb] gets from the file system and from mxmlLoadFd: the
    status of opening the file, its size when PhGetFileSize succeeds, and
    the top node of the parsed document (NULL when the bytes do not
    parse). *)
Record DB_FILE := mkFile {
  CreateFileStatus : NTSTATUS;
  FileSize : option Z;
  TopNode : option mxml_node_t
}.

Definition LoadDb (file : DB_FILE) (ObjectDb : PH_HASHTABLE)
  : NTSTATUS * PH_HASHTABLE :=
  let status := CreateFileStatus file in
  if negb (NT_SUCCESS status) then (status, ObjectDb)
  else
    match FileSize file with
    | Some 0 => (status, ObjectDb)
    | _ =>
        match TopNode file with
        | None => (STATUS_FILE_CORRUPT_ERROR, ObjectDb)
        | Some topNode =>
            if negb (is_element topNode)
            then (STATUS_FILE_CORRUPT_ERROR, ObjectDb)
            else (STATUS_SUCCESS,
                  LoadDbNodes (mxmlGetChildren topNode) ObjectDb)
        end
    end.

(** ** Encoding *)

Definition SaveDbNode (object : DB_OBJECT) : mxml_node_t :=
  let objectTagUtf8 := FormatValueToUtf8 (Tag object) in
  let objectPriorityClassUtf8 := FormatValueToUtf8 (PriorityClass object) in
  let objectIoPriorityPlusOneUtf8 :=
    FormatValueToUtf8 (IoPriorityPlusOne object) in
  let objectBackColorUtf8 := FormatValueToUtf8 (BackColor object) in
  let objectCollapseUtf8 :=
    FormatValueToUtf8 (if Collapse object then 1 else 0) in
  let objectAffinityMaskUtf8 := FormatValueToUtf8 (AffinityMask object) in
  let objectNameUtf8 := StringRefToUtf8 (Name object) in
  let objectCommentUtf8 := StringRefToUtf8 (Comment object) in
  let attrs := [] in
  let attrs := mxmlElementSetAttr attrs "tag" objectTagUtf8 in
  let attrs := mxmlElementSetAttr attrs "name" objectNameUtf8 in
  let attrs :=
    mxmlElementSetAttr attrs "priorityclass" objectPriorityClassUtf8 in
  let attrs :=
    mxmlElementSetAttr attrs "iopriorityplusone"
                       objectIoPriorityPlusOneUtf8 in
  let attrs := mxmlElementSetAttr attrs "backcolor" objectBackColorUtf8 in
  let attrs := mxmlElementSetAttr attrs "collapse" objectCollapseUtf8 in
  let attrs := mxmlElementSetAttr attrs "affinity" objectAffinityMaskUtf8 in
  mxml_element "object" attrs [mxml_opaque objectCommentUtf8].

(** The document built under the lock. *)
Definition SaveDbDocument (ObjectDb : PH_HASHTABLE) : mxml_node_t :=
  mxml_element "objects" [] (map SaveDbNode (PhEnumHashtable ObjectDb)).

(** [SaveDb] with the status of creating the file as input; the result is
    the status and the document handed to mxmlSaveFd, if any. *)
Definition SaveDb (createStatus : NTSTATUS) (ObjectDb : PH_HASHTABLE)
  : NTSTATUS * option mxml_node_t :=
  let topNode := SaveDbDocument ObjectDb in
  if negb (NT_SUCCESS createStatus) then (createStatus, None)
  else (STATUS_SUCCESS, Some topNode).

(** * Vocabulary of the properties *)

(** ** Keys *)

Definition PhUpperString (s : string) : string :=
  map_chars RtlUpcaseUnicodeChar s.

(** The key of a record in canonical form: the tag and the upcased name. *)
Definition key_of (o : DB_OBJECT) : Z * string :=
  (Tag o, PhUpperString (Name o)).

(** No two live records have the same tag and names that are equal up to
    letter case. *)
Definition KeyInvariant (T : PH_HASHTABLE) : Prop :=
  forall (p1 p2 : PDB_OBJECT) (o1 o2 : DB_OBJECT),
    ObjectAt T p1 = Some o1 -> ObjectAt T p2 = Some o2 ->
    Tag o1 = Tag o2 ->
    PhEqualStringRef (Name o1) (Name o2) true = true ->
    p1 = p2.

Definition distinct_keys (entries : list DB_OBJECT) : Prop :=
  NoDup (map key_of entries).

Definition keeps_key (f : DB_OBJECT -> DB_OBJECT) : Prop :=
  forall o, key_of (f o) = key_of o.

(** ** Create-or-update on the entry array *)

(** Lookup by the equality function alone, over the whole entry array. *)
Fixpoint find_from (lookup : DB_OBJECT) (index : nat)
         (entries : list DB_OBJECT) : option nat :=
  match entries with
  | [] => None
  | entry :: rest =>
      if ObjectDbEqualFunction entry lookup then Some index
      else find_from lookup (S index) rest
  end.

(** Update the first entry with the key of [lookup], or append [lookup]
    itself, updated, when there is none. *)
Fixpoint upsert (lookup : DB_OBJECT) (f : DB_OBJECT -> DB_OBJECT)
         (entries : list DB_OBJECT) : list DB_OBJECT :=
  match entries with
  | [] => [f lookup]
  | entry :: rest =>
      if ObjectDbEqualFunction entry lookup then f entry :: rest
      else entry :: upsert lookup f rest
  end.

(** Where [upsert] finds or puts the record. *)
Definition slot_of (lookup : DB_OBJECT) (entries : list DB_OBJECT) : nat :=
  match find_from lookup O entries with
  | Some index => index
  | None => List.length entries
  end.

(** The record [CreateDbObject] allocates before it asks the table. *)
Definition new_object (Tag : Z) (Name : string) : DB_OBJECT :=
  mkObject Tag Name EmptyString 0 0 ULONG_MAX false 0.

Definition set_Comment_opt (Comment : option string) (o : DB_OBJECT)
  : DB_OBJECT :=
  match Comment with
  | Some c => set_Comment c o
  | None => o
  end.

(** ** Elements as actions on the store *)

(** The values an element writes: [None] leaves the field alone. *)
Record OVERRIDE := mkOverride {
  o_Comment : option string;
  o_PriorityClass : option Z;
  o_IoPriorityPlusOne : option Z;
  o_BackColor : option Z;
  o_Collapse : option bool;
  o_AffinityMask : option Z
}.

Definition or_keep {A : Type} (new : option A) (old : A) : A :=
  match new with Some v => v | None => old end.

Definition apply_override (ov : OVERRIDE) (o : DB_OBJECT) : DB_OBJECT :=
  mkObject (Tag o) (Name o)
           (or_keep (o_Comment ov) (Comment o))
           (or_keep (o_PriorityClass ov) (PriorityClass o))
           (or_keep (o_IoPriorityPlusOne ov) (IoPriorityPlusOne o))
           (or_keep (o_BackColor ov) (BackColor o))
           (or_keep (o_Collapse ov) (Collapse o))
           (or_keep (o_AffinityMask ov) (AffinityMask o)).

Definition parse_or (text : option string) (default : Z) : Z :=
  match text with
  | Some s => PhStringToInteger64 s 10 default
  | None => default
  end.

Definition node_override (fields : NODE_FIELDS) (comment : string)
  : OVERRIDE :=
  mkOverride
    (Some comment)
    (Some (to_ULONG (parse_or (f_priorityClass fields) 0)))
    (Some (to_ULONG (parse_or (f_ioPriorityPlusOne fields) 0)))
    (option_map (fun s => to_ULONG (PhStringToInteger64 s 10 ULONG_MAX))
                (f_backColor fields))
    (option_map (fun s => negb (PhStringToInteger64 s 10 0 =? 0))
                (f_collapse fields))
    (option_map (fun s => to_ULONG64 (PhStringToInteger64 s 10 0))
                (f_affinityMask fields)).

(** What one element of the document asks of the store: nothing, or a
    key, carried by a new record, with the values to write. *)
Definition ACTION : Type := option (DB_OBJECT * OVERRIDE).

(** The key an element addresses and the values it writes, if it has both
    a tag and a name. *)
Definition node_action (currentNode : mxml_node_t)
  : ACTION :=
  let fields := read_attrs currentNode in
  match f_tag fields, f_name fields with
  | Some tag, Some name =>
      Some (new_object (to_ULONG (PhStringToInteger64 tag 10 0)) name,
            node_override fields (GetOpaqueXmlNodeText currentNode))
  | _, _ => None
  end.

Definition perform (entries : list DB_OBJECT)
           (action : ACTION) : list DB_OBJECT :=
  match action with
  | Some (lookup, ov) => upsert lookup (apply_override ov) entries
  | None => entries
  end.

Definition node_actions (nodes : list mxml_node_t)
  : list ACTION :=
  map node_action nodes.

Definition perform_all (actions : list ACTION)
           (entries : list DB_OBJECT) : list DB_OBJECT :=
  fold_left perform actions entries.

(** The action addresses the key of the entry. *)
Definition hits (entry : DB_OBJECT) (action : ACTION) : bool :=
  match action with
  | Some (lookup, _) => ObjectDbEqualFunction entry lookup
  | None => false
  end.

Definition misses (entry : DB_OBJECT) (action : ACTION) : bool :=
  negb (hits entry action).

Definition apply_action (o : DB_OBJECT) (action : ACTION) : DB_OBJECT :=
  match action with
  | Some (_, ov) => apply_override ov o
  | None => o
  end.

Definition apply_actions (actions : list ACTION) (o : DB_OBJECT)
  : DB_OBJECT :=
  fold_left apply_action actions o.

(** Two overrides in a row are one override: the later value wins. *)
Definition or_else {A : Type} (later earlier : option A) : option A :=
  match later with Some v => Some v | None => earlier end.

Definition merge_override (earlier later : OVERRIDE) : OVERRIDE :=
  mkOverride
    (or_else (o_Comment later) (o_Comment earlier))
    (or_else (o_PriorityClass later) (o_PriorityClass earlier))
    (or_else (o_IoPriorityPlusOne later) (o_IoPriorityPlusOne earlier))
    (or_else (o_BackColor later) (o_BackColor earlier))
    (or_else (o_Collapse later) (o_Collapse earlier))
    (or_else (o_AffinityMask later) (o_AffinityMask earlier)).

Definition merge_action (ov : OVERRIDE) (action : ACTION) : OVERRIDE :=
  match action with
  | Some (_, later) => merge_override ov later
  | None => ov
  end.

Definition no_override : OVERRIDE :=
  mkOverride None None None None None None.

(** ** Attributes and fields *)

(** The value a field holds after one attribute: the value of the
    attribute when its name is the name of the field up to letter case
    and its value is not NULL. *)
Definition bind (field : string) (bound : option string)
           (attr : mxml_attr_t) : option string :=
  match snd attr with
  | Some elementValue =>
      if PhEqualBytesZ (fst attr) field true
      then Some (PhConvertUtf8ToUtf16 elementValue)
      else bound
  | None => bound
  end.

Definition last_attr (field : string) (attrs : list mxml_attr_t)
           (bound : option string) : option string :=
  fold_left (bind field) attrs bound.

Definition lower_name (attr : mxml_attr_t) : string :=
  map_chars tolower (fst attr).

Definition field_names : list string :=
  ["tag"; "name"; "priorityclass"; "iopriorityplusone"; "backcolor";
   "collapse"; "affinity"]%string.

Definition node_fields (attrs : list mxml_attr_t) (fields : NODE_FIELDS)
  : NODE_FIELDS :=
  fold_left read_attr attrs fields.

(** The rest of the loop body, from the bound fields and the comment. *)
Definition fields_action (fields : NODE_FIELDS) (comment : string)
  : ACTION :=
  match f_tag fields, f_name fields with
  | Some tag, Some name =>
      Some (new_object (to_ULONG (PhStringToInteger64 tag 10 0)) name,
            node_override fields comment)
  | _, _ => None
  end.

(** Two attributes that differ at most in the letter case of the name. *)
Definition same_attr (a a' : mxml_attr_t) : Prop :=
  lower_name a = lower_name a' /\ snd a = snd a'.

(** The name of the attribute is none of the seven, in any letter case. *)
Definition unrecognized (a : mxml_attr_t) : Prop :=
  ~ In (lower_name a) field_names.

(** ** Reachable states *)

(** Direct assignments to the fields of a record obtained from the store. *)
Inductive FIELD_WRITE :=
| WriteComment (Comment : string)
| WritePriorityClass (PriorityClass : Z)
| WriteIoPriorityPlusOne (IoPriorityPlusOne : Z)
| WriteBackColor (BackColor : Z)
| WriteCollapse (Collapse : bool)
| WriteAffinityMask (AffinityMask : Z).

Definition field_write (w : FIELD_WRITE) : DB_OBJECT -> DB_OBJECT :=
  match w with
  | WriteComment c => set_Comment c
  | WritePriorityClass v => set_PriorityClass v
  | WriteIoPriorityPlusOne v => set_IoPriorityPlusOne v
  | WriteBackColor v => set_BackColor v
  | WriteCollapse b => set_Collapse b
  | WriteAffinityMask v => set_AffinityMask v
  end.

(** The states of the store a host can reach. *)
Inductive Reachable : PH_HASHTABLE -> Prop :=
| Reachable_init : Reachable InitializeDb
| Reachable_create (Tag : Z) (Name : string) (Comment : option string)
                   (T : PH_HASHTABLE) :
    Reachable T -> Reachable (snd (CreateDbObject Tag Name Comment T))
| Reachable_delete (Object : PDB_OBJECT) (T : PH_HASHTABLE) :
    Reachable T -> Reachable (DeleteDbObject Object T)
| Reachable_load (file : DB_FILE) (T : PH_HASHTABLE) :
    Reachable T -> Reachable (snd (LoadDb file T))
| Reachable_write (Object : PDB_OBJECT) (w : FIELD_WRITE)
                  (T : PH_HASHTABLE) :
    Reachable T -> Reachable (Assign Object (field_write w) T).

(** ** Ranges and decimal text *)

(** The fields of a record are within the range of their C types. *)
Definition DbObjectValid (o : DB_OBJECT) : Prop :=
  is_ULONG (Tag o) /\ is_ULONG (PriorityClass o)
  /\ is_ULONG (IoPriorityPlusOne o) /\ is_ULONG (BackColor o)
  /\ is_ULONG64 (AffinityMask o).

(** The values the element of a saved record writes when it is read
    back. *)
Definition saved_override (o : DB_OBJECT) : OVERRIDE :=
  mkOverride
    (Some (Comment o))
    (Some (to_ULONG (PhStringToInteger64
                       (FormatValueToUtf8 (PriorityClass o)) 10 0)))
    (Some (to_ULONG (PhStringToInteger64
                       (FormatValueToUtf8 (IoPriorityPlusOne o)) 10 0)))
    (Some (to_ULONG (PhStringToInteger64
                       (FormatValueToUtf8 (BackColor o)) 10 ULONG_MAX)))
    (Some (negb (PhStringToInteger64
                   (FormatValueToUtf8 (if Collapse o then 1 else 0)) 10 0
                 =? 0)))
    (Some (to_ULONG64 (PhStringToInteger64
                         (FormatValueToUtf8 (AffinityMask o)) 10 0))).

(** The text is a run of decimal digits. *)
Fixpoint all_digits (s : string) : bool :=
  match s with
  | EmptyString => true
  | String c r => is_digit c && all_digits r
  end.

(** The number a run of decimal digits denotes, by positional value. *)
Fixpoint decimal_value (s : string) : Z :=
  match s with
  | EmptyString => 0
  | String c r =>
      digit_value c * 10 ^ Z.of_nat (String.length r) + decimal_value r
  end.

(** ** Sample documents and stores *)

(** The tree of
    <objects><object tag="1" name="notepad.exe" priorityclass="2"
    collapse="1">hello</object></objects>
    as mxmlLoadFd builds it with the opaque callback. *)
Definition notepad_document : mxml_node_t :=
  mxml_element "objects" []
    [mxml_element "object"
       [("tag", Some "1"); ("name", Some "notepad.exe");
        ("priorityclass", Some "2"); ("collapse", Some "1")]
       [mxml_opaque "hello"]]%string.

Definition notepad_file : DB_FILE :=
  mkFile STATUS_SUCCESS (Some 99) (Some notepad_document).

(** A document with two elements whose keys differ only in the letter
    case of the name. *)
Definition twin_document : mxml_node_t :=
  mxml_element "objects" []
    [mxml_element "object" [("tag", Some "5"); ("name", Some "Foo")]
                  [mxml_opaque "first"];
     mxml_element "object" [("tag", Some "5"); ("name", Some "foo")]
                  [mxml_opaque "second"]]%string.

Definition twin_file : DB_FILE :=
  mkFile STATUS_SUCCESS (Some 120) (Some twin_document).

(** An element that spells two attribute names in another letter case:
    "Tag" and "BACKCOLOR" for "tag" and "backcolor". *)
Definition recased_document : mxml_node_t :=
  mxml_element "objects" []
    [mxml_element "object"
       [("Tag", Some "7"); ("name", Some "calc.exe");
        ("BACKCOLOR", Some "255")]
       []]%string.

Definition recased_file : DB_FILE :=
  mkFile STATUS_SUCCESS (Some 80) (Some recased_document).

(** An element whose tag is the text of 2^32 + 1. *)
Definition wide_tag_document : mxml_node_t :=
  mxml_element "objects" []
    [mxml_element "object"
       [("tag", Some "4294967297"); ("name", Some "a.exe");
        ("priorityclass", Some "4294967298")]
       []]%string.

Definition wide_tag_file : DB_FILE :=
  mkFile STATUS_SUCCESS (Some 90) (Some wide_tag_document).

(** A store with two records, one with the all-bits-set back color and a
    zero affinity mask. *)
Definition sample_store : PH_HASHTABLE :=
  mkTable 64
    [mkObject 1 "notepad.exe" "hello" 2 0 4294967295 true 0;
     mkObject 4294967295 "Svc Host" EmptyString 32768 3 255 false
              18446744073709551615]%string.

(** ** Lookup results, addressing and field access *)

(** What a caller reads through the pointer [FindDbObject] returns. *)
Definition FindRecord (Tag : Z) (Name : string) (ObjectDb : PH_HASHTABLE)
  : option DB_OBJECT :=
  match FindDbObject Tag Name ObjectDb with
  | Some object => ObjectAt ObjectDb object
  | None => None
  end.

(** The element binds a tag and a name, and they are the key of [o]. *)
Definition addresses (currentNode : mxml_node_t) (o : DB_OBJECT) : Prop :=
  exists tag name,
    f_tag (read_attrs currentNode) = Some tag
    /\ f_name (read_attrs currentNode) = Some name
    /\ Tag o = to_ULONG (PhStringToInteger64 tag 10 0)
    /\ PhEqualStringRef (Name o) name true = true.

(** The string local of the element loop that belongs to a field name. *)
Definition field_value (field : string) (fields : NODE_FIELDS)
  : option string :=
  if String.eqb field "tag" then f_tag fields
  else if String.eqb field "name" then f_name fields
  else if String.eqb field "priorityclass" then f_priorityClass fields
  else if String.eqb field "iopriorityplusone"
       then f_ioPriorityPlusOne fields
  else if String.eqb field "backcolor" then f_backColor fields
  else if String.eqb field "collapse" then f_collapse fields
  else if String.eqb field "affinity" then f_affinityMask fields
  else None.

(** 0xC0000034 read as a signed 32-bit value. *)
Definition STATUS_OBJECT_NAME_NOT_FOUND : NTSTATUS := -1073741772.

(** ** Two elements with one key *)

(** An element with a back color, and an element with the same key and
    no back color attribute. *)
Definition colored_element : mxml_node_t :=
  (mxml_element "object"
     [("tag", Some "3"); ("name", Some "a.exe"); ("backcolor", Some "255")]
     [])%string.

Definition plain_element : mxml_node_t :=
  (mxml_element "object"
     [("tag", Some "3"); ("name", Some "a.exe")] [])%string.

Definition recolored_file : DB_FILE :=
  mkFile STATUS_SUCCESS (Some 130)
         (Some (mxml_element "objects" []
                             [colored_element; plain_element])).

(** * Properties *)

(** ** Case folding, keys and hashing *)

Section CaseFolding.

Variable fold : ascii -> ascii.

Lemma fold_char_eq (c1 c2 : ascii) :
  Ascii.eqb c1 c2 || (true && Ascii.eqb (fold c1) (fold c2)) = true
  <-> fold c1 = fold c2.
Proof.
  rewrite orb_true_iff, andb_true_l, !Ascii.eqb_eq.
  split; [intros [->|H]; auto | auto].
Qed.

Lemma equal_chars_fold (s1 s2 : string) :
  equal_chars fold true s1 s2 = true
  <-> map_chars fold s1 = map_chars fold s2.
Proof.
  revert s2; induction s1 as [|c1 r1 IH]; intros [|c2 r2]; simpl;
    try (split; [discriminate | discriminate]); [tauto|].
  rewrite andb_true_iff, fold_char_eq, IH.
  split; [intros [-> ->]; reflexivity | intros H; inversion H; auto].
Qed.

Lemma equal_chars_exact (s1 s2 : string) :
  equal_chars fold false s1 s2 = true <-> s1 = s2.
Proof.
  revert s2; induction s1 as [|c1 r1 IH]; intros [|c2 r2]; simpl;
    try (split; [discriminate | discriminate]); [tauto|].
  rewrite ?andb_false_l, ?orb_false_r, andb_true_iff, Ascii.eqb_eq, IH.
  split; [intros [-> ->]; reflexivity | intros H; inversion H; auto].
Qed.

End CaseFolding.

Lemma PhEqualStringRef_upper (s1 s2 : string) :
  PhEqualStringRef s1 s2 true = true <-> PhUpperString s1 = PhUpperString s2.
Proof. apply equal_chars_fold. Qed.

Lemma ObjectDbEqualFunction_key (o1 o2 : DB_OBJECT) :
  ObjectDbEqualFunction o1 o2 = true <-> key_of o1 = key_of o2.
Proof.
  unfold ObjectDbEqualFunction, key_of, Key.
  rewrite andb_true_iff, Z.eqb_eq, PhEqualStringRef_upper.
  split; [intros [-> ->]; reflexivity | intros H; inversion H; auto].
Qed.

Lemma ObjectDbEqualFunction_refl (o : DB_OBJECT) :
  ObjectDbEqualFunction o o = true.
Proof. apply ObjectDbEqualFunction_key; reflexivity. Qed.

Lemma ObjectDbEqualFunction_congr (o1 o2 o : DB_OBJECT) :
  key_of o1 = key_of o2 ->
  ObjectDbEqualFunction o1 o = ObjectDbEqualFunction o2 o.
Proof.
  intros H.
  destruct (ObjectDbEqualFunction o1 o) eqn:E1,
           (ObjectDbEqualFunction o2 o) eqn:E2; auto.
  - apply ObjectDbEqualFunction_key in E1.
    assert (E : ObjectDbEqualFunction o2 o = true)
      by (apply ObjectDbEqualFunction_key; congruence).
    congruence.
  - apply ObjectDbEqualFunction_key in E2.
    assert (E : ObjectDbEqualFunction o1 o = true)
      by (apply ObjectDbEqualFunction_key; congruence).
    congruence.
Qed.

Lemma ObjectDbEqualFunction_congr_r (o o1 o2 : DB_OBJECT) :
  key_of o1 = key_of o2 ->
  ObjectDbEqualFunction o o1 = ObjectDbEqualFunction o o2.
Proof.
  intros H.
  destruct (ObjectDbEqualFunction o o1) eqn:E1,
           (ObjectDbEqualFunction o o2) eqn:E2; auto.
  - apply ObjectDbEqualFunction_key in E1.
    assert (E : ObjectDbEqualFunction o o2 = true)
      by (apply ObjectDbEqualFunction_key; congruence).
    congruence.
  - apply ObjectDbEqualFunction_key in E2.
    assert (E : ObjectDbEqualFunction o o1 = true)
      by (apply ObjectDbEqualFunction_key; congruence).
    congruence.
Qed.

Lemma hash_chars_upper (s : string) (hash : Z) :
  hash_chars true s hash = hash_chars false (PhUpperString s) hash.
Proof.
  revert hash; induction s as [|c r IH]; intros hash; simpl; auto.
Qed.

(** Hashing and equality agree: equal keys have equal hash codes. *)
Lemma ObjectDbHashFunction_key (o1 o2 : DB_OBJECT) :
  key_of o1 = key_of o2 -> ObjectDbHashFunction o1 = ObjectDbHashFunction o2.
Proof.
  unfold key_of, ObjectDbHashFunction, PhHashStringRef, Key.
  intros H; inversion H as [[Ht Hn]].
  rewrite !hash_chars_upper, Hn; reflexivity.
Qed.

(** ** Lookup, whatever the bucket *)

Lemma in_chain_equal (T : PH_HASHTABLE) (lookup entry : DB_OBJECT) :
  in_chain T (ObjectDbHashFunction lookup) lookup entry
  = ObjectDbEqualFunction entry lookup.
Proof.
  unfold in_chain.
  destruct (ObjectDbEqualFunction entry lookup) eqn:E.
  - apply ObjectDbEqualFunction_key, ObjectDbHashFunction_key in E.
    rewrite E, !Z.eqb_refl; reflexivity.
  - apply andb_false_r.
Qed.

Lemma PhpFindEntry_find_from (T : PH_HASHTABLE) (lookup : DB_OBJECT)
      (index : nat) (entries : list DB_OBJECT) :
  PhpFindEntry T (ObjectDbHashFunction lookup) lookup index entries
  = find_from lookup index entries.
Proof.
  revert index; induction entries as [|e r IH]; intros index; simpl; auto.
  rewrite in_chain_equal, IH; reflexivity.
Qed.

Lemma PhFindEntryHashtable_find_from (T : PH_HASHTABLE)
      (lookup : DB_OBJECT) :
  PhFindEntryHashtable T lookup = find_from lookup O (Entries T).
Proof. apply PhpFindEntry_find_from. Qed.

Lemma find_from_shift (lookup : DB_OBJECT) (index : nat)
      (entries : list DB_OBJECT) :
  find_from lookup (S index) entries
  = option_map S (find_from lookup index entries).
Proof.
  revert index; induction entries as [|e r IH]; intros index; simpl; auto.
  destruct (ObjectDbEqualFunction e lookup); simpl; auto.
Qed.

Lemma find_from_congr (l1 l2 : DB_OBJECT) (index : nat)
      (entries : list DB_OBJECT) :
  key_of l1 = key_of l2 ->
  find_from l1 index entries = find_from l2 index entries.
Proof.
  intros H; revert index; induction entries as [|e r IH]; intros index;
    simpl; auto.
  rewrite (ObjectDbEqualFunction_congr_r e l1 l2 H), IH; reflexivity.
Qed.

Lemma find_from_Some (lookup : DB_OBJECT) (entries : list DB_OBJECT)
      (index : nat) :
  find_from lookup O entries = Some index ->
  exists entry, nth_error entries index = Some entry
                /\ key_of entry = key_of lookup.
Proof.
  revert index; induction entries as [|e r IH]; intros index; simpl;
    [discriminate|].
  destruct (ObjectDbEqualFunction e lookup) eqn:E.
  - intros H; inversion H; subst. exists e; split; auto.
    apply ObjectDbEqualFunction_key; exact E.
  - rewrite find_from_shift.
    destruct (find_from lookup O r) as [j|] eqn:F; simpl; [|discriminate].
    intros H; inversion H; subst. simpl. apply IH; reflexivity.
Qed.

Lemma find_from_None (lookup : DB_OBJECT) (entries : list DB_OBJECT) :
  find_from lookup O entries = None <->
  ~ In (key_of lookup) (map key_of entries).
Proof.
  induction entries as [|e r IH]; simpl; [tauto|].
  destruct (ObjectDbEqualFunction e lookup) eqn:E.
  - apply ObjectDbEqualFunction_key in E.
    split; [discriminate | intros H; exfalso; apply H; auto].
  - rewrite find_from_shift.
    assert (N : key_of e <> key_of lookup).
    { intros K. apply ObjectDbEqualFunction_key in K. congruence. }
    destruct (find_from lookup O r) as [j|] eqn:F; simpl.
    + split; [discriminate|]. intros H. exfalso.
      assert (X : ~ In (key_of lookup) (map key_of r)) by tauto.
      apply IH in X. discriminate.
    + split; auto. intros _ [K|K]; [auto|]. revert K. apply IH; reflexivity.
Qed.

(** ** Create-or-update on the entry array *)

Lemma slot_of_cons (lookup entry : DB_OBJECT) (rest : list DB_OBJECT) :
  slot_of lookup (entry :: rest)
  = if ObjectDbEqualFunction entry lookup then O
    else S (slot_of lookup rest).
Proof.
  unfold slot_of; simpl.
  destruct (ObjectDbEqualFunction entry lookup); auto.
  rewrite find_from_shift.
  destruct (find_from lookup O rest); reflexivity.
Qed.

Lemma update_at_upsert (lookup : DB_OBJECT) (f g : DB_OBJECT -> DB_OBJECT)
      (entries : list DB_OBJECT) :
  update_at (slot_of lookup entries) g (upsert lookup f entries)
  = upsert lookup (fun o => g (f o)) entries.
Proof.
  induction entries as [|e r IH]; [reflexivity|].
  rewrite slot_of_cons; simpl.
  destruct (ObjectDbEqualFunction e lookup); simpl; [reflexivity|].
  rewrite IH; reflexivity.
Qed.

Lemma upsert_id (lookup : DB_OBJECT) (entries : list DB_OBJECT) :
  find_from lookup O entries <> None ->
  upsert lookup (fun o => o) entries = entries.
Proof.
  induction entries as [|e r IH]; simpl; [congruence|].
  destruct (ObjectDbEqualFunction e lookup); [reflexivity|].
  rewrite find_from_shift.
  intros H; rewrite IH; [reflexivity|].
  destruct (find_from lookup O r); [discriminate | exact H].
Qed.

Lemma upsert_absent (lookup : DB_OBJECT) (f : DB_OBJECT -> DB_OBJECT)
      (entries : list DB_OBJECT) :
  find_from lookup O entries = None ->
  upsert lookup f entries = entries ++ [f lookup].
Proof.
  induction entries as [|e r IH]; simpl; [reflexivity|].
  destruct (ObjectDbEqualFunction e lookup); [discriminate|].
  rewrite find_from_shift.
  intros H; rewrite IH; [reflexivity|].
  destruct (find_from lookup O r); [discriminate | reflexivity].
Qed.

Lemma upsert_present (lookup : DB_OBJECT) (f : DB_OBJECT -> DB_OBJECT)
      (entries : list DB_OBJECT) (index : nat) :
  find_from lookup O entries = Some index ->
  upsert lookup f entries = update_at index f entries.
Proof.
  revert index; induction entries as [|e r IH]; intros index; simpl;
    [discriminate|].
  destruct (ObjectDbEqualFunction e lookup).
  - intros H; inversion H; reflexivity.
  - rewrite find_from_shift.
    destruct (find_from lookup O r) as [j|]; simpl; [|discriminate].
    intros H; inversion H; subst; simpl. rewrite (IH j); reflexivity.
Qed.

Lemma upsert_ext (lookup : DB_OBJECT) (f g : DB_OBJECT -> DB_OBJECT)
      (entries : list DB_OBJECT) :
  (forall o, f o = g o) -> upsert lookup f entries = upsert lookup g entries.
Proof.
  intros H; induction entries as [|e r IH]; simpl; rewrite ?H, ?IH; auto.
Qed.

(** [CreateDbObject] is an [upsert] whose update stores the comment, when
    one is supplied; the pointer it returns is the slot of the key. *)
Lemma CreateDbObject_upsert (Tag : Z) (Name : string)
      (Comment : option string) (T : PH_HASHTABLE) :
  CreateDbObject Tag Name Comment T
  = (slot_of (new_object Tag Name) (Entries T),
     mkTable (AllocatedBuckets T)
             (upsert (new_object Tag Name) (set_Comment_opt Comment)
                     (Entries T))).
Proof.
  unfold CreateDbObject, PhAddEntryHashtableEx, slot_of.
  fold (new_object Tag Name).
  rewrite PhFindEntryHashtable_find_from.
  destruct (find_from (new_object Tag Name) O (Entries T)) as [i|] eqn:F.
  - destruct Comment as [c|]; simpl.
    + unfold Assign. rewrite (upsert_present _ _ _ _ F). reflexivity.
    + rewrite upsert_id by congruence. destruct T; reflexivity.
  - unfold Assign; simpl. f_equal. f_equal.
    rewrite (upsert_absent _ _ _ F).
    assert (U : forall (l : list DB_OBJECT) x g,
               update_at (List.length l) g (l ++ [x]) = l ++ [g x]).
    { induction l as [|y l IH]; intros x g; simpl; [reflexivity|].
      rewrite IH; reflexivity. }
    rewrite U. destruct Comment; reflexivity.
Qed.

Lemma Assign_upsert (lookup : DB_OBJECT) (f g : DB_OBJECT -> DB_OBJECT)
      (buckets : Z) (entries : list DB_OBJECT) :
  Assign (slot_of lookup entries) g
         (mkTable buckets (upsert lookup f entries))
  = mkTable buckets (upsert lookup (fun o => g (f o)) entries).
Proof. unfold Assign; simpl. rewrite update_at_upsert. reflexivity. Qed.

(** ** What one element does to the table *)

Lemma LoadDbNode_perform (currentNode : mxml_node_t) (T : PH_HASHTABLE) :
  LoadDbNode currentNode T
  = mkTable (AllocatedBuckets T)
            (perform (Entries T) (node_action currentNode)).
Proof.
  unfold LoadDbNode, node_action, perform.
  destruct (read_attrs currentNode) as [tag name pc io bc col aff]; simpl.
  destruct tag as [tag|]; [|destruct T; reflexivity].
  destruct name as [name|]; [|destruct T; reflexivity].
  rewrite CreateDbObject_upsert.
  rewrite !Assign_upsert.
  destruct bc as [bc|], col as [col|], aff as [aff|]; simpl;
    rewrite ?Assign_upsert; f_equal; apply upsert_ext; intros o;
    reflexivity.
Qed.

Lemma LoadDbNodes_perform_all (nodes : list mxml_node_t)
      (T : PH_HASHTABLE) :
  LoadDbNodes nodes T
  = mkTable (AllocatedBuckets T)
            (perform_all (node_actions nodes) (Entries T)).
Proof.
  unfold LoadDbNodes, perform_all, node_actions.
  revert T; induction nodes as [|n r IH]; intros T; simpl.
  - destruct T; reflexivity.
  - rewrite IH, LoadDbNode_perform; reflexivity.
Qed.

(** ** The key invariant *)

Lemma KeyInvariant_distinct_keys (T : PH_HASHTABLE) :
  KeyInvariant T <-> distinct_keys (Entries T).
Proof.
  unfold KeyInvariant, distinct_keys, ObjectAt.
  rewrite NoDup_nth_error. split.
  - intros H i j Hi E.
    rewrite length_map in Hi.
    rewrite !nth_error_map in E.
    destruct (nth_error (Entries T) i) as [o1|] eqn:E1.
    2:{ apply nth_error_None in E1. lia. }
    destruct (nth_error (Entries T) j) as [o2|] eqn:E2; [|discriminate].
    simpl in E. inversion E as [[Ht Hn]].
    apply (H i j o1 o2); auto.
    apply PhEqualStringRef_upper; exact Hn.
  - intros H p1 p2 o1 o2 E1 E2 Ht Hn.
    apply H.
    + rewrite length_map. apply nth_error_Some. congruence.
    + rewrite !nth_error_map, E1, E2. simpl. unfold key_of.
      apply PhEqualStringRef_upper in Hn. congruence.
Qed.

Lemma keeps_key_apply_override (ov : OVERRIDE) :
  keeps_key (apply_override ov).
Proof. intros o; reflexivity. Qed.

Lemma keeps_key_set_Comment_opt (Comment : option string) :
  keeps_key (set_Comment_opt Comment).
Proof. intros o; destruct Comment; reflexivity. Qed.

Lemma map_key_update_at (f : DB_OBJECT -> DB_OBJECT) (index : nat)
      (entries : list DB_OBJECT) :
  keeps_key f ->
  map key_of (update_at index f entries) = map key_of entries.
Proof.
  intros K; revert index; induction entries as [|e r IH]; intros [|i];
    simpl; rewrite ?K, ?IH; reflexivity.
Qed.

Lemma map_key_upsert (lookup : DB_OBJECT) (f : DB_OBJECT -> DB_OBJECT)
      (entries : list DB_OBJECT) :
  keeps_key f ->
  map key_of (upsert lookup f entries)
  = match find_from lookup O entries with
    | Some _ => map key_of entries
    | None => map key_of entries ++ [key_of lookup]
    end.
Proof.
  intros K.
  destruct (find_from lookup O entries) as [i|] eqn:F.
  - rewrite (upsert_present _ _ _ _ F). apply map_key_update_at; exact K.
  - rewrite (upsert_absent _ _ _ F), map_app; simpl. rewrite K; reflexivity.
Qed.

Lemma distinct_keys_upsert (lookup : DB_OBJECT)
      (f : DB_OBJECT -> DB_OBJECT) (entries : list DB_OBJECT) :
  keeps_key f -> distinct_keys entries ->
  distinct_keys (upsert lookup f entries).
Proof.
  unfold distinct_keys; intros K H.
  rewrite (map_key_upsert _ _ _ K).
  destruct (find_from lookup O entries) as [i|] eqn:F; [exact H|].
  apply NoDup_app; [exact H | repeat constructor; intros [] |].
  intros a Ha [<-|[]]. apply find_from_None in F. contradiction.
Qed.

Lemma NoDup_remove_at {A : Type} (index : nat) (l : list A) :
  NoDup l -> NoDup (remove_at index l).
Proof.
  assert (I : forall (l : list A) i x, In x (remove_at i l) -> In x l).
  { induction l0 as [|y r IH]; intros [|i] x; simpl; auto.
    intros [->|H]; eauto. }
  intros H; revert index; induction H as [|y r N H IH]; intros [|i]; simpl;
    try constructor; auto.
  intros X; apply N; eapply I; exact X.
Qed.

Lemma map_remove_at {A B : Type} (f : A -> B) (index : nat) (l : list A) :
  map f (remove_at index l) = remove_at index (map f l).
Proof.
  revert index; induction l as [|y r IH]; intros [|i]; simpl;
    rewrite ?IH; reflexivity.
Qed.

Lemma distinct_keys_perform (entries : list DB_OBJECT)
      (action : ACTION) :
  distinct_keys entries -> distinct_keys (perform entries action).
Proof.
  destruct action as [[lookup ov]|]; simpl; auto.
  apply distinct_keys_upsert, keeps_key_apply_override.
Qed.

Lemma distinct_keys_perform_all
      (actions : list ACTION)
      (entries : list DB_OBJECT) :
  distinct_keys entries -> distinct_keys (perform_all actions entries).
Proof.
  unfold perform_all; revert entries;
    induction actions as [|a r IH]; intros entries H; simpl; auto.
  apply IH, distinct_keys_perform, H.
Qed.

Lemma LoadDb_entries (file : DB_FILE) (T : PH_HASHTABLE) :
  Entries (snd (LoadDb file T)) = Entries T
  \/ exists nodes,
      Entries (snd (LoadDb file T))
      = perform_all (node_actions nodes) (Entries T).
Proof.
  unfold LoadDb.
  destruct (negb (NT_SUCCESS (CreateFileStatus file))); [left; reflexivity|].
  destruct (FileSize file) as [[| |]|]; try (left; reflexivity);
    (destruct (TopNode file) as [topNode|]; [|left; reflexivity];
     destruct (negb (is_element topNode)); [left; reflexivity|];
     right; exists (mxmlGetChildren topNode); simpl;
     rewrite LoadDbNodes_perform_all; reflexivity).
Qed.

Lemma Reachable_distinct_keys (T : PH_HASHTABLE) :
  Reachable T -> distinct_keys (Entries T).
Proof.
  induction 1 as [|tag name c T R IH|p T R IH|file T R IH|p w T R IH].
  - constructor.
  - rewrite CreateDbObject_upsert; simpl.
    apply distinct_keys_upsert; [apply keeps_key_set_Comment_opt | exact IH].
  - unfold DeleteDbObject, PhRemoveEntryHashtable.
    destruct (ObjectAt T p); [|exact IH].
    destruct (PhFindEntryHashtable T d); [|exact IH].
    simpl. unfold distinct_keys. rewrite map_remove_at.
    apply NoDup_remove_at, IH.
  - destruct (LoadDb_entries file T) as [E|[nodes E]]; rewrite E;
      [exact IH | apply distinct_keys_perform_all, IH].
  - unfold Assign, distinct_keys; simpl.
    rewrite map_key_update_at; [exact IH|].
    intros o; destruct w; reflexivity.
Qed.

(** C3.  Key uniqueness is an invariant of the store: in every state
    reached from [InitializeDb] by [CreateDbObject], [DeleteDbObject],
    [LoadDb] of any document and direct field writes, no two live records
    have equal tags and names equal up to letter case. *)
Theorem key_uniqueness_invariant (T : PH_HASHTABLE) :
  Reachable T -> KeyInvariant T.
Proof.
  intros R. apply KeyInvariant_distinct_keys, Reachable_distinct_keys, R.
Qed.

Lemma key_uniqueness_invariant_witness :
  Reachable (snd (LoadDb twin_file InitializeDb))
  /\ List.length (Entries (snd (LoadDb twin_file InitializeDb))) = 1%nat
  /\ KeyInvariant (snd (LoadDb twin_file InitializeDb)).
Proof.
  split; [apply Reachable_load, Reachable_init|].
  split; [reflexivity|].
  apply (key_uniqueness_invariant (snd (LoadDb twin_file InitializeDb))).
  apply Reachable_load, Reachable_init.
Defined.

(** ** Reading the table after an update *)

Lemma nth_error_update_at {A : Type} (f : A -> A) (index i : nat)
      (l : list A) :
  nth_error (update_at index f l) i
  = if Nat.eqb i index then option_map f (nth_error l i)
    else nth_error l i.
Proof.
  revert index i; induction l as [|x r IH]; intros [|index] [|i]; simpl;
    auto; try (destruct (Nat.eqb _ _); reflexivity).
Qed.

Lemma nth_error_upsert_slot (lookup : DB_OBJECT)
      (f : DB_OBJECT -> DB_OBJECT) (entries : list DB_OBJECT) :
  nth_error (upsert lookup f entries) (slot_of lookup entries)
  = Some (f (match nth_error entries (slot_of lookup entries) with
             | Some o => o
             | None => lookup
             end)).
Proof.
  induction entries as [|e r IH]; [reflexivity|].
  rewrite slot_of_cons; simpl.
  destruct (ObjectDbEqualFunction e lookup); simpl; auto.
Qed.

Lemma nth_error_upsert_other (lookup : DB_OBJECT)
      (f : DB_OBJECT -> DB_OBJECT) (entries : list DB_OBJECT) (q : nat) :
  q <> slot_of lookup entries ->
  nth_error (upsert lookup f entries) q = nth_error entries q.
Proof.
  revert q; induction entries as [|e r IH]; intros q.
  - unfold slot_of; simpl. destruct q as [|q]; [congruence|].
    destruct q; reflexivity.
  - rewrite slot_of_cons; simpl.
    destruct (ObjectDbEqualFunction e lookup); destruct q as [|q]; simpl;
      auto; try congruence;
      intros H; apply IH; congruence.
Qed.

Lemma find_from_upsert_same (lookup : DB_OBJECT)
      (f : DB_OBJECT -> DB_OBJECT) (entries : list DB_OBJECT) :
  keeps_key f ->
  find_from lookup O (upsert lookup f entries)
  = Some (slot_of lookup entries).
Proof.
  intros K; induction entries as [|e r IH].
  - simpl. rewrite (ObjectDbEqualFunction_congr _ _ _ (K lookup)),
      ObjectDbEqualFunction_refl. reflexivity.
  - rewrite slot_of_cons; simpl.
    destruct (ObjectDbEqualFunction e lookup) eqn:E; simpl.
    + rewrite (ObjectDbEqualFunction_congr _ _ _ (K e)), E. reflexivity.
    + rewrite E, find_from_shift, IH. reflexivity.
Qed.

Lemma find_from_upsert_other (lookup other : DB_OBJECT)
      (f : DB_OBJECT -> DB_OBJECT) (entries : list DB_OBJECT) :
  keeps_key f -> key_of other <> key_of lookup ->
  find_from other O (upsert lookup f entries) = find_from other O entries.
Proof.
  intros K N; induction entries as [|e r IH]; simpl.
  - rewrite (ObjectDbEqualFunction_congr _ _ _ (K lookup)).
    destruct (ObjectDbEqualFunction lookup other) eqn:E; auto.
    apply ObjectDbEqualFunction_key in E. congruence.
  - destruct (ObjectDbEqualFunction e lookup) eqn:E; simpl.
    + rewrite (ObjectDbEqualFunction_congr _ _ _ (K e)). reflexivity.
    + rewrite !find_from_shift, IH. reflexivity.
Qed.

Lemma FindDbObject_find_from (Tag : Z) (Name : string) (T : PH_HASHTABLE) :
  FindDbObject Tag Name T = find_from (new_object Tag Name) O (Entries T).
Proof.
  unfold FindDbObject. rewrite PhFindEntryHashtable_find_from.
  apply find_from_congr. reflexivity.
Qed.

(** ** Create or update *)

(** C2.  [CreateDbObject], for every tag, name and optional comment.  When
    no record has the key, the record returned is new: it holds the tag,
    the name, the supplied comment or the empty text, priority class 0,
    I/O priority 0, no collapse, affinity mask 0 and the all-bits-set back
    color, and the records already there are untouched.  When a record has
    the key, that record is returned, its comment replaced exactly when a
    comment is supplied, and every other record is untouched. *)
Theorem CreateDbObject_creates_or_updates (Tag0 : Z) (Name0 : string)
        (Comment0 : option string) (T : PH_HASHTABLE) :
  let object := fst (CreateDbObject Tag0 Name0 Comment0 T) in
  let T' := snd (CreateDbObject Tag0 Name0 Comment0 T) in
  match FindDbObject Tag0 Name0 T with
  | None =>
      ObjectAt T object = None
      /\ ObjectAt T' object
         = Some (mkObject Tag0 Name0
                          (match Comment0 with
                           | Some c => c
                           | None => EmptyString
                           end)
                          0 0 ULONG_MAX false 0)
      /\ forall q, q <> object -> ObjectAt T' q = ObjectAt T q
  | Some existing =>
      object = existing
      /\ exists o,
          ObjectAt T existing = Some o
          /\ Tag o = Tag0
          /\ PhEqualStringRef (Name o) Name0 true = true
          /\ ObjectAt T' existing
             = Some (match Comment0 with
                     | Some c => set_Comment c o
                     | None => o
                     end)
          /\ forall q, q <> existing -> ObjectAt T' q = ObjectAt T q
  end.
Proof.
  rewrite CreateDbObject_upsert, FindDbObject_find_from; simpl.
  unfold ObjectAt; simpl.
  pose proof (nth_error_upsert_slot (new_object Tag0 Name0)
                (set_Comment_opt Comment0) (Entries T)) as HS.
  pose proof (nth_error_upsert_other (new_object Tag0 Name0)
                (set_Comment_opt Comment0) (Entries T)) as HO.
  unfold slot_of in *.
  destruct (find_from (new_object Tag0 Name0) O (Entries T)) as [p|] eqn:F.
  - split; [reflexivity|].
    destruct (find_from_Some _ _ _ F) as [o [Ho Hk]].
    exists o. rewrite Ho in HS.
    unfold key_of in Hk; simpl in Hk; injection Hk as Ht Hn.
    split; [exact Ho|]. split; [exact Ht|].
    split; [apply PhEqualStringRef_upper; exact Hn|].
    split; [|exact HO].
    rewrite HS. destruct Comment0; reflexivity.
  - assert (N : nth_error (Entries T) (List.length (Entries T)) = None)
      by (apply nth_error_None; lia).
    rewrite N in HS. split; [exact N|]. split; [|exact HO].
    rewrite HS. destruct Comment0; reflexivity.
Qed.

Lemma CreateDbObject_creates_or_updates_witness :
  (* a new key *)
  ObjectAt (snd (CreateDbObject 5 "Foo" None InitializeDb)) O
  = Some (mkObject 5 "Foo" EmptyString 0 0 ULONG_MAX false 0)
  (* an existing key, no comment supplied, then one supplied *)
  /\ ObjectAt (snd (CreateDbObject 5 "FOO" None
                     (snd (CreateDbObject 5 "Foo" (Some "note"%string)
                                          InitializeDb)))) O
     = Some (mkObject 5 "Foo" "note" 0 0 ULONG_MAX false 0)
  /\ ObjectAt (snd (CreateDbObject 5 "FOO" (Some "other"%string)
                     (snd (CreateDbObject 5 "Foo" (Some "note"%string)
                                          InitializeDb)))) O
     = Some (mkObject 5 "Foo" "other" 0 0 ULONG_MAX false 0).
Proof.
  split; [|split].
  - exact (proj1 (proj2 (CreateDbObject_creates_or_updates
                           5 "Foo" None InitializeDb))).
  - destruct (CreateDbObject_creates_or_updates
                5 "FOO" None
                (snd (CreateDbObject 5 "Foo" (Some "note"%string)
                                     InitializeDb)))
      as (_ & o & Ho & _ & _ & H & _).
    simpl in Ho. injection Ho as <-. exact H.
  - destruct (CreateDbObject_creates_or_updates
                5 "FOO" (Some "other"%string)
                (snd (CreateDbObject 5 "Foo" (Some "note"%string)
                                     InitializeDb)))
      as (_ & o & Ho & _ & _ & H & _).
    simpl in Ho. injection Ho as <-. exact H.
Defined.

(** ** Lookup *)

(** C4.  Lookup is exact on the tag and ignores letter case in the name.
    After [CreateDbObject t n], looking up [t] with a name equal to [n] up
    to letter case returns the very record [CreateDbObject] returned,
    whatever the number of buckets; looking up [n] under another tag
    returns what it returned before the call, which is nothing in a store
    that held no record under that other key, a new store in particular. *)
Theorem FindDbObject_exact_tag_caseless_name (t t' : Z) (n n' : string)
        (c : option string) (T : PH_HASHTABLE) :
  let object := fst (CreateDbObject t n c T) in
  let T' := snd (CreateDbObject t n c T) in
  (PhEqualStringRef n n' true = true ->
   FindDbObject t n' T' = Some object
   /\ exists o, ObjectAt T' object = Some o /\ Tag o = t
                /\ PhEqualStringRef (Name o) n' true = true)
  /\ (t' <> t ->
      FindDbObject t' n T' = FindDbObject t' n T
      /\ FindDbObject t' n
           (snd (CreateDbObject t n c
                   (PhCreateHashtable (AllocatedBuckets T)))) = None).
Proof.
  rewrite !CreateDbObject_upsert; simpl. split.
  - intros E. apply PhEqualStringRef_upper in E.
    assert (K : key_of (new_object t n') = key_of (new_object t n))
      by (unfold key_of; simpl; congruence).
    rewrite FindDbObject_find_from; simpl.
    rewrite (find_from_congr _ _ _ _ K).
    split; [apply find_from_upsert_same, keeps_key_set_Comment_opt|].
    unfold ObjectAt; simpl. rewrite nth_error_upsert_slot.
    eexists; split; [reflexivity|].
    pose proof (keeps_key_set_Comment_opt c) as KK.
    unfold slot_of.
    destruct (find_from (new_object t n) O (Entries T)) as [p|] eqn:F.
    + destruct (find_from_Some _ _ _ F) as [o [Ho Hk]]. rewrite Ho.
      rewrite <- (KK o) in Hk.
      unfold key_of in Hk; simpl in Hk; injection Hk as Ht Hn.
      split; [exact Ht|]. apply PhEqualStringRef_upper.
      unfold PhUpperString in *. congruence.
    + assert (N : nth_error (Entries T) (List.length (Entries T)) = None)
        by (apply nth_error_None; lia).
      rewrite N. pose proof (KK (new_object t n)) as Hk.
      unfold key_of in Hk; simpl in Hk; injection Hk as Ht Hn.
      split; [exact Ht|]. apply PhEqualStringRef_upper.
      unfold PhUpperString in *. congruence.
  - intros Ht.
    assert (K : key_of (new_object t' n) <> key_of (new_object t n))
      by (unfold key_of; simpl; congruence).
    rewrite !FindDbObject_find_from; simpl.
    split.
    + apply find_from_upsert_other;
        [apply keeps_key_set_Comment_opt | exact K].
    + exact (find_from_upsert_other (new_object t n) (new_object t' n)
               (set_Comment_opt c) []
               (keeps_key_set_Comment_opt c) K).
Qed.

Lemma FindDbObject_exact_tag_caseless_name_witness :
  let object := fst (CreateDbObject 5 "Foo" None InitializeDb) in
  let T' := snd (CreateDbObject 5 "Foo" None InitializeDb) in
  FindDbObject 5 "foo" T' = Some object
  /\ FindDbObject 6 "Foo" T' = None.
Proof.
  pose proof (FindDbObject_exact_tag_caseless_name
                5 6 "Foo" "foo" None InitializeDb) as [H1 H2].
  split.
  - apply H1. reflexivity.
  - apply H2. lia.
Defined.

(** ** Decimal text: printing then parsing *)

Lemma digit_char_digit (d : Z) :
  0 <= d < 10 ->
  is_digit (digit_char d) = true /\ digit_value (digit_char d) = d.
Proof.
  intros H.
  assert (C : d = 0 \/ d = 1 \/ d = 2 \/ d = 3 \/ d = 4 \/ d = 5 \/ d = 6
              \/ d = 7 \/ d = 8 \/ d = 9) by lia.
  repeat (destruct C as [->|C]; [split; reflexivity|]).
  subst; split; reflexivity.
Qed.

Lemma parse_format_digits (fuel : nat) (v : Z) (acc : string) :
  0 <= v < 10 ^ Z.of_nat fuel ->
  parse_digits 10 (format_digits fuel v acc) 0 = parse_digits 10 acc v.
Proof.
  revert v acc; induction fuel as [|fuel IH]; intros v acc H.
  - simpl in *. assert (v = 0) by lia. subst; reflexivity.
  - rewrite Nat2Z.inj_succ, Z.pow_succ_r in H by lia.
    assert (Hm : 0 <= v mod 10 < 10) by (apply Z.mod_pos_bound; lia).
    destruct (digit_char_digit _ Hm) as [D V].
    pose proof (Z.div_mod v 10 ltac:(lia)) as DM.
    simpl format_digits.
    destruct (v / 10 =? 0) eqn:E.
    + apply Z.eqb_eq in E. simpl parse_digits. rewrite D, V.
      replace (v mod 10 <? 10) with true by (symmetry; apply Z.ltb_lt; lia).
      simpl. f_equal. lia.
    + apply Z.eqb_neq in E. rewrite IH.
      * simpl parse_digits. rewrite D, V.
        replace (v mod 10 <? 10) with true
          by (symmetry; apply Z.ltb_lt; lia).
        simpl. f_equal. lia.
      * split; [apply Z.div_pos; lia|].
        apply Z.div_lt_upper_bound; lia.
Qed.

(** Every unsigned 64-bit value is read back from its decimal text. *)
Lemma PhStringToInteger64_FormatValueToUtf8 (v Integer : Z) :
  is_ULONG64 v ->
  PhStringToInteger64 (FormatValueToUtf8 v) 10 Integer = v.
Proof.
  unfold is_ULONG64, ULONG64_MAX; intros H.
  unfold PhStringToInteger64, FormatValueToUtf8.
  rewrite parse_format_digits by (change (10 ^ Z.of_nat 20)
    with 100000000000000000000; lia).
  cbv beta iota delta [parse_digits].
  assert (L : (v <=? ULONG64_MAX) = true)
    by (apply Z.leb_le; unfold ULONG64_MAX; lia).
  rewrite L. reflexivity.
Qed.

Lemma to_ULONG_small (v : Z) : is_ULONG v -> to_ULONG v = v.
Proof.
  unfold is_ULONG, ULONG_MAX, to_ULONG; intros H.
  apply Z.mod_small; lia.
Qed.

Lemma to_ULONG64_small (v : Z) : is_ULONG64 v -> to_ULONG64 v = v.
Proof.
  unfold is_ULONG64, ULONG64_MAX, to_ULONG64; intros H.
  apply Z.mod_small; lia.
Qed.

Lemma is_ULONG_is_ULONG64 (v : Z) : is_ULONG v -> is_ULONG64 v.
Proof. unfold is_ULONG, is_ULONG64, ULONG_MAX, ULONG64_MAX; lia. Qed.

(** ** A concrete document *)

(** C5.  Decoding the document with the single element tag="1"
    name="notepad.exe" priorityclass="2" collapse="1" and body hello into
    an empty store succeeds and leaves exactly one record: tag 1, name
    notepad.exe, comment hello, priority class 2, I/O priority 0, the
    all-bits-set back color, collapse set, affinity mask 0. *)
Theorem LoadDb_notepad_document :
  LoadDb notepad_file InitializeDb
  = (STATUS_SUCCESS,
     mkTable 64 [mkObject 1 "notepad.exe" "hello" 2 0 4294967295 true 0]).
Proof. reflexivity. Qed.

(** ** A root that is not an element *)

(** C9.  When the file opens, is not empty and parses to a top node that
    is not an element, [LoadDb] returns the corruption status and the
    store is the one it was given. *)
Theorem LoadDb_root_not_element (file : DB_FILE) (topNode : mxml_node_t)
        (T : PH_HASHTABLE) :
  NT_SUCCESS (CreateFileStatus file) = true ->
  FileSize file <> Some 0 ->
  TopNode file = Some topNode ->
  mxmlGetType topNode <> MXML_ELEMENT ->
  LoadDb file T = (STATUS_FILE_CORRUPT_ERROR, T).
Proof.
  intros Hs Hz Ht Hn. unfold LoadDb. rewrite Hs, Ht; simpl.
  assert (E : is_element topNode = false).
  { unfold is_element. destruct (mxmlGetType topNode); congruence. }
  rewrite E; simpl.
  destruct (FileSize file) as [[| |]|]; congruence.
Qed.

Lemma LoadDb_root_not_element_witness :
  let T := snd (LoadDb notepad_file InitializeDb) in
  LoadDb (mkFile STATUS_SUCCESS (Some 9) (Some (mxml_opaque "bare text")))
         T
  = (STATUS_FILE_CORRUPT_ERROR, T).
Proof.
  apply (LoadDb_root_not_element
           (mkFile STATUS_SUCCESS (Some 9) (Some (mxml_opaque "bare text")))
           (mxml_opaque "bare text")).
  - reflexivity.
  - simpl; discriminate.
  - reflexivity.
  - simpl; discriminate.
Defined.

(** ** Save, then load *)

Lemma node_action_SaveDbNode (o : DB_OBJECT) :
  node_action (SaveDbNode o)
  = Some (new_object
            (to_ULONG (PhStringToInteger64 (FormatValueToUtf8 (Tag o)) 10 0))
            (Name o),
          saved_override o).
Proof. reflexivity. Qed.

Lemma saved_override_restores (o : DB_OBJECT) :
  DbObjectValid o ->
  to_ULONG (PhStringToInteger64 (FormatValueToUtf8 (Tag o)) 10 0) = Tag o
  /\ apply_override (saved_override o) (new_object (Tag o) (Name o)) = o.
Proof.
  intros (Ht & Hp & Hi & Hb & Ha).
  split.
  - rewrite PhStringToInteger64_FormatValueToUtf8, to_ULONG_small;
      auto using is_ULONG_is_ULONG64.
  - unfold apply_override, saved_override, new_object; simpl.
    rewrite !PhStringToInteger64_FormatValueToUtf8, !to_ULONG_small,
      to_ULONG64_small; auto using is_ULONG_is_ULONG64.
    + destruct o as [t n c p i b [|] a]; reflexivity.
    + destruct (Collapse o); unfold is_ULONG64, ULONG64_MAX; lia.
Qed.

Lemma perform_all_saved (saved loaded : list DB_OBJECT) :
  distinct_keys (loaded ++ saved) ->
  Forall DbObjectValid saved ->
  perform_all (node_actions (map SaveDbNode saved)) loaded
  = loaded ++ saved.
Proof.
  unfold perform_all, node_actions.
  revert loaded; induction saved as [|o r IH]; intros loaded D V.
  - simpl. rewrite app_nil_r; reflexivity.
  - inversion V as [|? ? Vo Vr]; subst.
    destruct (saved_override_restores o Vo) as [Et Eo].
    cbn [map fold_left].
    rewrite node_action_SaveDbNode, Et. cbn [perform].
    rewrite upsert_absent.
    + rewrite Eo, IH; auto.
      * rewrite <- app_assoc; reflexivity.
      * rewrite <- app_assoc; exact D.
    + apply find_from_None.
      unfold distinct_keys in D. rewrite map_app in D; simpl in D.
      apply NoDup_remove_2 in D.
      intros X; apply D, in_or_app; left; exact X.
Qed.

(** An element decodes alike with an empty body and with no body at all:
    an empty comment may come back from the file as an element without
    child. *)
Remark LoadDbNode_empty_body (name : string) (attrs : list mxml_attr_t)
       (T : PH_HASHTABLE) :
  LoadDbNode (mxml_element name attrs [mxml_opaque EmptyString]) T
  = LoadDbNode (mxml_element name attrs []) T.
Proof. reflexivity. Qed.

(** C1.  Round trip through the codec.  For every store whose records
    have pairwise distinct keys and fields within the range of their
    types (any values, the all-bits-set back color and a zero affinity
    mask included), [SaveDb] succeeds when the file can be created, and
    [LoadDb] of the saved document into a new store succeeds and yields
    the records of the original store: the same records field by field,
    up to the order of enumeration. *)
Theorem SaveDb_LoadDb_round_trip (T : PH_HASHTABLE) (createStatus : NTSTATUS)
        (file : DB_FILE) :
  KeyInvariant T ->
  Forall DbObjectValid (Entries T) ->
  NT_SUCCESS createStatus = true ->
  NT_SUCCESS (CreateFileStatus file) = true ->
  FileSize file <> Some 0 ->
  TopNode file = snd (SaveDb createStatus T) ->
  fst (SaveDb createStatus T) = STATUS_SUCCESS
  /\ fst (LoadDb file InitializeDb) = STATUS_SUCCESS
  /\ Permutation (PhEnumHashtable (snd (LoadDb file InitializeDb)))
                 (PhEnumHashtable T)
  /\ forall o, In o (PhEnumHashtable (snd (LoadDb file InitializeDb)))
               <-> In o (PhEnumHashtable T).
Proof.
  intros K V Hc Hs Hz Ht.
  unfold SaveDb in *. rewrite Hc in *; simpl in Ht |- *.
  assert (E : LoadDb file InitializeDb
              = (STATUS_SUCCESS, mkTable 64 (Entries T))).
  { unfold LoadDb. rewrite Hs, Ht; simpl.
    rewrite LoadDbNodes_perform_all; simpl.
    unfold PhEnumHashtable.
    rewrite perform_all_saved; simpl; auto.
    - destruct (FileSize file) as [[| |]|]; congruence.
    - apply KeyInvariant_distinct_keys; exact K. }
  rewrite E; simpl. unfold PhEnumHashtable; simpl.
  repeat split; auto.
Qed.

Lemma SaveDb_LoadDb_round_trip_witness :
  let file := mkFile STATUS_SUCCESS (Some 300)
                     (snd (SaveDb STATUS_SUCCESS sample_store)) in
  fst (SaveDb STATUS_SUCCESS sample_store) = STATUS_SUCCESS
  /\ fst (LoadDb file InitializeDb) = STATUS_SUCCESS
  /\ Permutation (PhEnumHashtable (snd (LoadDb file InitializeDb)))
                 (PhEnumHashtable sample_store)
  /\ forall o, In o (PhEnumHashtable (snd (LoadDb file InitializeDb)))
               <-> In o (PhEnumHashtable sample_store).
Proof.
  apply (SaveDb_LoadDb_round_trip sample_store STATUS_SUCCESS
           (mkFile STATUS_SUCCESS (Some 300)
                   (snd (SaveDb STATUS_SUCCESS sample_store)))).
  - apply KeyInvariant_distinct_keys. unfold distinct_keys; simpl.
    repeat constructor; simpl; intuition discriminate.
  - repeat constructor; simpl; unfold ULONG_MAX, ULONG64_MAX; lia.
  - reflexivity.
  - reflexivity.
  - simpl; discriminate.
  - reflexivity.
Defined.

(** ** Decoding twice *)

Lemma apply_override_merge (earlier later : OVERRIDE) (o : DB_OBJECT) :
  apply_override later (apply_override earlier o)
  = apply_override (merge_override earlier later) o.
Proof.
  destruct later as [[?|] [?|] [?|] [?|] [?|] [?|]],
           earlier as [[?|] [?|] [?|] [?|] [?|] [?|]]; reflexivity.
Qed.

Lemma apply_override_twice (ov : OVERRIDE) (o : DB_OBJECT) :
  apply_override ov (apply_override ov o) = apply_override ov o.
Proof.
  destruct ov as [[?|] [?|] [?|] [?|] [?|] [?|]]; reflexivity.
Qed.

Lemma apply_actions_merge (actions : list ACTION) (ov : OVERRIDE)
      (o : DB_OBJECT) :
  apply_actions actions (apply_override ov o)
  = apply_override (fold_left merge_action actions ov) o.
Proof.
  unfold apply_actions; revert ov;
    induction actions as [|[[l later]|] r IH]; intros ov; simpl; auto.
  rewrite apply_override_merge, IH; reflexivity.
Qed.

Lemma apply_no_override (o : DB_OBJECT) : apply_override no_override o = o.
Proof. destruct o; reflexivity. Qed.

Lemma apply_actions_override (actions : list ACTION) (o : DB_OBJECT) :
  apply_actions actions o
  = apply_override (fold_left merge_action actions no_override) o.
Proof.
  transitivity (apply_actions actions (apply_override no_override o)).
  - rewrite apply_no_override; reflexivity.
  - apply apply_actions_merge.
Qed.

Lemma apply_actions_twice (actions : list ACTION) (o : DB_OBJECT) :
  apply_actions actions (apply_actions actions o) = apply_actions actions o.
Proof.
  rewrite !apply_actions_override. apply apply_override_twice.
Qed.

Lemma key_of_apply_actions (actions : list ACTION) (o : DB_OBJECT) :
  key_of (apply_actions actions o) = key_of o.
Proof. rewrite apply_actions_override; reflexivity. Qed.

Lemma hits_congr (o1 o2 : DB_OBJECT) (actions : list ACTION) :
  key_of o1 = key_of o2 ->
  filter (hits o1) actions = filter (hits o2) actions
  /\ filter (misses o1) actions = filter (misses o2) actions.
Proof.
  intros K; split; apply filter_ext; intros [[l ov]|]; unfold misses;
    simpl; auto; rewrite (ObjectDbEqualFunction_congr _ _ _ K); reflexivity.
Qed.

(** Running a list of actions on a table that starts with [entry]: the
    actions that address the key of [entry] update it in turn, the other
    actions run on the rest of the table. *)
Lemma perform_all_cons (actions : list ACTION) (entry : DB_OBJECT)
      (rest : list DB_OBJECT) :
  perform_all actions (entry :: rest)
  = apply_actions (filter (hits entry) actions) entry
    :: perform_all (filter (misses entry) actions) rest.
Proof.
  unfold perform_all, apply_actions.
  revert entry rest; induction actions as [|a r IH]; intros entry rest;
    [reflexivity|].
  destruct a as [[l ov]|]; cbn [fold_left perform].
  - cbn [upsert]. unfold misses at 1. cbn [filter hits].
    destruct (ObjectDbEqualFunction entry l) eqn:E; cbn [negb fold_left].
    + rewrite IH.
      destruct (hits_congr (apply_override ov entry) entry r
                  (keeps_key_apply_override ov entry)) as [-> ->].
      reflexivity.
    + rewrite IH. reflexivity.
  - rewrite IH. reflexivity.
Qed.

Lemma perform_all_twice_nil (n : nat) (actions : list ACTION) :
  (List.length actions <= n)%nat ->
  perform_all actions (perform_all actions [])
  = perform_all actions [].
Proof.
  revert actions; induction n as [|n IH]; intros actions L.
  - destruct actions; [reflexivity | simpl in L; lia].
  - destruct actions as [|[[l ov]|] r]; [reflexivity| |].
    + change (perform_all (Some (l, ov) :: r) [])
        with (perform_all r [apply_override ov l]).
      rewrite perform_all_cons.
      set (x := apply_override ov l).
      set (hit := filter (hits x) r).
      set (miss := filter (misses x) r).
      rewrite perform_all_cons.
      assert (Kx : key_of x = key_of l) by reflexivity.
      assert (K : key_of (apply_actions hit x) = key_of x)
        by apply key_of_apply_actions.
      match goal with
      | |- context [filter (hits (apply_actions hit x)) ?acts] =>
          destruct (hits_congr _ _ acts K) as [E1 E2]
      end.
      rewrite E1, E2. clear E1 E2.
      unfold misses at 1. cbn [filter hits].
      rewrite (ObjectDbEqualFunction_congr _ _ _ Kx),
        ObjectDbEqualFunction_refl. cbn [negb].
      fold hit miss. f_equal.
      * change (apply_actions (Some (l, ov) :: hit) (apply_actions hit x))
          with (apply_actions hit
                  (apply_override ov (apply_actions hit x))).
        change (apply_actions hit x)
          with (apply_actions (Some (l, ov) :: hit) l).
        change (apply_actions hit
                  (apply_override ov
                     (apply_actions (Some (l, ov) :: hit) l)))
          with (apply_actions (Some (l, ov) :: hit)
                  (apply_actions (Some (l, ov) :: hit) l)).
        apply apply_actions_twice.
      * apply IH. unfold miss.
        pose proof (filter_length_le (misses x) r). simpl in L. lia.
    + change (perform_all (None :: r) []) with (perform_all r []).
      change (perform_all (None :: r) (perform_all r []))
        with (perform_all r (perform_all r [])).
      apply IH. simpl in L. lia.
Qed.

Lemma perform_all_twice (actions : list ACTION)
      (entries : list DB_OBJECT) :
  perform_all actions (perform_all actions entries)
  = perform_all actions entries.
Proof.
  revert actions; induction entries as [|e r IH]; intros actions.
  - apply (perform_all_twice_nil (List.length actions)); lia.
  - rewrite perform_all_cons.
    set (hit := filter (hits e) actions).
    rewrite perform_all_cons.
    destruct (hits_congr _ _ actions (key_of_apply_actions hit e))
      as [E1 E2].
    rewrite E1, E2. fold hit. rewrite apply_actions_twice, IH. reflexivity.
Qed.

Lemma LoadDb_shape (file : DB_FILE) :
  (exists status, forall T, LoadDb file T = (status, T))
  \/ (exists nodes,
        forall T, LoadDb file T = (STATUS_SUCCESS, LoadDbNodes nodes T)).
Proof.
  unfold LoadDb.
  destruct (negb (NT_SUCCESS (CreateFileStatus file)));
    [left; eexists; reflexivity|].
  destruct (FileSize file) as [[| |]|]; try (left; eexists; reflexivity);
    (destruct (TopNode file) as [topNode|]; [|left; eexists; reflexivity];
     destruct (negb (is_element topNode)); [left; eexists; reflexivity|];
     right; eexists; reflexivity).
Qed.

(** C10.  Decoding is idempotent: loading a file into a store and then
    loading the same file into the result gives the table the first load
    gave, with the same status.  Each element goes through
    [CreateDbObject] on its key and writes the same decoded values again;
    a field whose attribute is absent is left as the first load left it. *)
Theorem LoadDb_idempotent (file : DB_FILE) (T : PH_HASHTABLE) :
  LoadDb file (snd (LoadDb file T)) = LoadDb file T.
Proof.
  destruct (LoadDb_shape file) as [[status H]|[nodes H]].
  - rewrite !H. reflexivity.
  - rewrite !H. simpl. rewrite !LoadDbNodes_perform_all. simpl.
    rewrite perform_all_twice. reflexivity.
Qed.

(** ** Binding attributes to fields *)

Lemma PhEqualBytesZ_eqb (s1 s2 : string) :
  PhEqualBytesZ s1 s2 true
  = String.eqb (map_chars tolower s1) (map_chars tolower s2).
Proof.
  unfold PhEqualBytesZ.
  destruct (String.eqb_spec (map_chars tolower s1) (map_chars tolower s2))
    as [E|E].
  - apply equal_chars_fold; exact E.
  - destruct (equal_chars tolower true s1 s2) eqn:C; auto.
    apply equal_chars_fold in C. contradiction.
Qed.

Lemma read_attr_bind (fields : NODE_FIELDS) (attr : mxml_attr_t) :
  read_attr fields attr
  = mkFields (bind "tag" (f_tag fields) attr)
             (bind "name" (f_name fields) attr)
             (bind "priorityclass" (f_priorityClass fields) attr)
             (bind "iopriorityplusone" (f_ioPriorityPlusOne fields) attr)
             (bind "backcolor" (f_backColor fields) attr)
             (bind "collapse" (f_collapse fields) attr)
             (bind "affinity" (f_affinityMask fields) attr).
Proof.
  destruct attr as [n [v|]]; unfold read_attr, bind; cbn [fst snd];
    [|destruct fields; reflexivity].
  rewrite !PhEqualBytesZ_eqb.
  remember (map_chars tolower n) as N eqn:HN; clear HN.
  repeat match goal with
         | |- context [String.eqb N (map_chars tolower ?lit)] =>
             destruct (String.eqb_spec N (map_chars tolower lit));
             [subst N; destruct fields; reflexivity|]
         end.
  destruct fields; reflexivity.
Qed.

Lemma node_fields_last_attr (attrs : list mxml_attr_t)
      (fields : NODE_FIELDS) :
  node_fields attrs fields
  = mkFields (last_attr "tag" attrs (f_tag fields))
             (last_attr "name" attrs (f_name fields))
             (last_attr "priorityclass" attrs (f_priorityClass fields))
             (last_attr "iopriorityplusone" attrs
                        (f_ioPriorityPlusOne fields))
             (last_attr "backcolor" attrs (f_backColor fields))
             (last_attr "collapse" attrs (f_collapse fields))
             (last_attr "affinity" attrs (f_affinityMask fields)).
Proof.
  unfold node_fields, last_attr.
  revert fields; induction attrs as [|a r IH]; intros fields.
  - destruct fields; reflexivity.
  - cbn [fold_left]. rewrite IH, read_attr_bind. reflexivity.
Qed.

Lemma node_action_fields (currentNode : mxml_node_t) :
  node_action currentNode
  = fields_action (read_attrs currentNode)
                  (GetOpaqueXmlNodeText currentNode).
Proof. reflexivity. Qed.

Lemma bind_two_fields (f1 f2 : string) (attr : mxml_attr_t)
      (v1 v2 : string) :
  map_chars tolower f1 <> map_chars tolower f2 ->
  bind f1 None attr = Some v1 -> bind f2 None attr = Some v2 -> False.
Proof.
  destruct attr as [n [v|]]; unfold bind; cbn [fst snd];
    [|discriminate].
  rewrite !PhEqualBytesZ_eqb.
  destruct (String.eqb_spec (map_chars tolower n) (map_chars tolower f1));
    [|discriminate].
  destruct (String.eqb_spec (map_chars tolower n) (map_chars tolower f2));
    [|discriminate].
  congruence.
Qed.

(** The test on the number of attributes changes nothing: an element with
    fewer than two attributes cannot bind both a tag and a name. *)
Lemma fields_action_read_attrs (currentNode : mxml_node_t)
      (comment : string) :
  fields_action (read_attrs currentNode) comment
  = fields_action (node_fields (mxmlElementGetAttrs currentNode) no_fields)
                  comment.
Proof.
  unfold read_attrs, mxmlElementGetAttrCount, node_fields.
  destruct (mxmlElementGetAttrs currentNode) as [|a [|b r]].
  - reflexivity.
  - change (2 <=? Z.of_nat (List.length [a])) with false.
    cbn [fold_left]. rewrite read_attr_bind. unfold fields_action; cbn.
    destruct (bind "tag" None a) eqn:E1; [|reflexivity].
    destruct (bind "name" None a) eqn:E2; [|reflexivity].
    exfalso. eapply (bind_two_fields "tag" "name"); eauto. discriminate.
  - assert (L : (2 <=? Z.of_nat (List.length (a :: b :: r))) = true)
      by (apply Z.leb_le; simpl List.length; lia).
    rewrite L. reflexivity.
Qed.

Lemma LoadDbNode_fields (currentNode : mxml_node_t) (T : PH_HASHTABLE) :
  LoadDbNode currentNode T
  = mkTable (AllocatedBuckets T)
      (perform (Entries T)
         (fields_action
            (node_fields (mxmlElementGetAttrs currentNode) no_fields)
            (GetOpaqueXmlNodeText currentNode))).
Proof.
  rewrite LoadDbNode_perform, node_action_fields, fields_action_read_attrs.
  reflexivity.
Qed.

(** *** Letter case, order and unknown names *)

Lemma bind_same_attr (field : string) (bound : option string)
      (a a' : mxml_attr_t) :
  same_attr a a' -> bind field bound a = bind field bound a'.
Proof.
  intros [Hn Hv]. unfold bind, lower_name in *.
  rewrite !PhEqualBytesZ_eqb, Hn, Hv. reflexivity.
Qed.

Lemma read_attr_same_attr (fields : NODE_FIELDS) (a a' : mxml_attr_t) :
  same_attr a a' -> read_attr fields a = read_attr fields a'.
Proof.
  intros H. rewrite !read_attr_bind.
  rewrite !(bind_same_attr _ _ a a' H). reflexivity.
Qed.

Lemma node_fields_same_attr (attrs attrs' : list mxml_attr_t)
      (fields : NODE_FIELDS) :
  Forall2 same_attr attrs attrs' ->
  node_fields attrs fields = node_fields attrs' fields.
Proof.
  unfold node_fields; intros H; revert fields.
  induction H as [|a a' r r' Ha Hr IH]; intros fields; [reflexivity|].
  cbn [fold_left]. rewrite (read_attr_same_attr _ a a' Ha). apply IH.
Qed.

Lemma bind_unrecognized (field : string) (bound : option string)
      (a : mxml_attr_t) :
  In field field_names -> unrecognized a -> bind field bound a = bound.
Proof.
  intros F U. unfold bind. destruct (snd a); [|reflexivity].
  rewrite PhEqualBytesZ_eqb.
  destruct (String.eqb_spec (map_chars tolower (fst a))
                            (map_chars tolower field)) as [E|E];
    [|reflexivity].
  exfalso; apply U. unfold lower_name. rewrite E.
  unfold field_names in *; simpl in F.
  repeat (destruct F as [<-|F]; [simpl; tauto|]). contradiction.
Qed.

Lemma read_attr_unrecognized (fields : NODE_FIELDS) (a : mxml_attr_t) :
  unrecognized a -> read_attr fields a = fields.
Proof.
  intros U. rewrite read_attr_bind.
  rewrite !bind_unrecognized by (auto; unfold field_names; simpl; tauto).
  destruct fields; reflexivity.
Qed.

Lemma node_fields_unrecognized (before after : list mxml_attr_t)
      (a : mxml_attr_t) (fields : NODE_FIELDS) :
  unrecognized a ->
  node_fields (before ++ a :: after) fields
  = node_fields (before ++ after) fields.
Proof.
  intros U. unfold node_fields. rewrite !fold_left_app. cbn [fold_left].
  rewrite (read_attr_unrecognized _ a U). reflexivity.
Qed.

Lemma bind_swap (field : string) (bound : option string)
      (a b : mxml_attr_t) :
  lower_name a <> lower_name b ->
  bind field (bind field bound a) b = bind field (bind field bound b) a.
Proof.
  intros N. unfold bind, lower_name in *.
  destruct (snd a) as [va|], (snd b) as [vb|]; try reflexivity.
  rewrite !PhEqualBytesZ_eqb.
  destruct (String.eqb_spec (map_chars tolower (fst a))
                            (map_chars tolower field)) as [Ea|Ea];
    destruct (String.eqb_spec (map_chars tolower (fst b))
                              (map_chars tolower field)) as [Eb|Eb];
    try reflexivity.
  congruence.
Qed.

Lemma last_attr_permutation (field : string)
      (attrs attrs' : list mxml_attr_t) :
  Permutation attrs attrs' ->
  NoDup (map lower_name attrs) ->
  forall bound, last_attr field attrs bound = last_attr field attrs' bound.
Proof.
  unfold last_attr.
  induction 1 as [|a r r' P IH|a b r|l1 l2 l3 P1 IH1 P2 IH2];
    intros D bound.
  - reflexivity.
  - simpl in D |- *. apply NoDup_cons_iff in D as [_ D]. apply IH, D.
  - simpl in D |- *. rewrite (bind_swap field bound b a); [reflexivity|].
    apply NoDup_cons_iff in D as [D _]. intros E; apply D; left; auto.
  - rewrite IH1 by exact D. apply IH2.
    eapply Permutation_NoDup; [|exact D].
    apply Permutation_map; exact P1.
Qed.

Lemma node_fields_permutation (attrs attrs' : list mxml_attr_t)
      (fields : NODE_FIELDS) :
  Permutation attrs attrs' ->
  NoDup (map lower_name attrs) ->
  node_fields attrs fields = node_fields attrs' fields.
Proof.
  intros P D. rewrite !node_fields_last_attr.
  rewrite !(last_attr_permutation _ attrs attrs' P D). reflexivity.
Qed.

(** C7, as the claim states it, fails: the attributes "Tag" and
    "BACKCOLOR" do bind to the tag and to the back color, and the element
    yields the record with tag 7 and back color 255. *)
Lemma attributes_case_sensitive_counterexample :
  f_tag (read_attrs (mxml_element "object"
                       [("Tag", Some "7"); ("name", Some "calc.exe");
                        ("BACKCOLOR", Some "255")] [])%string)
  = Some "7"%string
  /\ f_backColor (read_attrs (mxml_element "object"
                       [("Tag", Some "7"); ("name", Some "calc.exe");
                        ("BACKCOLOR", Some "255")] [])%string)
     = Some "255"%string
  /\ LoadDb recased_file InitializeDb
     = (STATUS_SUCCESS,
        mkTable 64 [mkObject 7 "calc.exe" EmptyString 0 0 255 false 0]).
Proof. repeat split; reflexivity. Qed.

(** ** The values an element stores *)

Lemma parse_digits_not_digits (s : string) (acc : Z) :
  all_digits s = false -> parse_digits 10 s acc = None.
Proof.
  revert acc; induction s as [|c r IH]; intros acc; simpl; [discriminate|].
  destruct (is_digit c); simpl; [|reflexivity].
  intros H. destruct (digit_value c <? 10); [apply IH, H | reflexivity].
Qed.

Lemma PhStringToInteger64_not_digits (s : string) (Integer : Z) :
  all_digits s = false -> PhStringToInteger64 s 10 Integer = 0.
Proof.
  intros H. unfold PhStringToInteger64.
  rewrite parse_digits_not_digits by exact H. reflexivity.
Qed.

Lemma is_digit_value (c : ascii) :
  is_digit c = true -> (digit_value c <? 10) = true.
Proof.
  unfold is_digit, digit_value. rewrite andb_true_iff, !Z.leb_le.
  intros [_ H]. apply Z.ltb_lt. lia.
Qed.

Lemma parse_digits_decimal (s : string) (acc : Z) :
  all_digits s = true ->
  parse_digits 10 s acc
  = Some (acc * 10 ^ Z.of_nat (String.length s) + decimal_value s).
Proof.
  revert acc; induction s as [|c r IH]; intros acc.
  - intros _. simpl. f_equal. lia.
  - cbn [all_digits parse_digits decimal_value String.length].
    rewrite andb_true_iff. intros [D H].
    rewrite D, (is_digit_value c D). cbn [andb]. rewrite (IH _ H).
    f_equal. rewrite Nat2Z.inj_succ, Z.pow_succ_r by lia. ring.
Qed.

(** The parser on a run of digits: its positional value when that fits
    64 bits, and 0 when it does not. *)
Lemma PhStringToInteger64_digits (s : string) (Integer : Z) :
  all_digits s = true ->
  PhStringToInteger64 s 10 Integer
  = if decimal_value s <=? ULONG64_MAX then decimal_value s else 0.
Proof.
  intros H. unfold PhStringToInteger64.
  rewrite (parse_digits_decimal s 0 H). cbn [Z.mul]. reflexivity.
Qed.

Lemma PhStringToInteger64_range (s : string) (Integer : Z) :
  is_ULONG64 (PhStringToInteger64 s 10 Integer).
Proof.
  assert (P : forall s acc v, 0 <= acc -> parse_digits 10 s acc = Some v ->
                              0 <= v).
  { induction s0 as [|c r IH]; intros acc v A; simpl.
    - intros H; inversion H; subst; exact A.
    - unfold is_digit, digit_value.
      destruct (48 <=? char_code c) eqn:E1; simpl; [|discriminate].
      destruct (char_code c <=? 57); simpl; [|discriminate].
      destruct (char_code c - 48 <? 10); [|discriminate].
      apply IH. apply Z.leb_le in E1. lia. }
  unfold PhStringToInteger64, is_ULONG64.
  destruct (parse_digits 10 s 0) as [v|] eqn:E;
    [|unfold ULONG64_MAX; lia].
  apply P in E; [|lia].
  destruct (Z.leb_spec v ULONG64_MAX); [lia | unfold ULONG64_MAX; lia].
Qed.

(** The record an element leaves behind its key: the record that was
    there, or the new one, with the values of the element written over. *)
Lemma LoadDbNode_object (currentNode : mxml_node_t) (T : PH_HASHTABLE)
      (tag name : string) :
  f_tag (read_attrs currentNode) = Some tag ->
  f_name (read_attrs currentNode) = Some name ->
  let lookup := new_object (to_ULONG (PhStringToInteger64 tag 10 0)) name in
  let object := slot_of lookup (Entries T) in
  ObjectAt (LoadDbNode currentNode T) object
  = Some (apply_override
            (node_override (read_attrs currentNode)
                           (GetOpaqueXmlNodeText currentNode))
            (match ObjectAt T object with
             | Some o => o
             | None => lookup
             end)).
Proof.
  intros Ht Hn. cbv zeta.
  rewrite LoadDbNode_perform. unfold node_action. rewrite Ht, Hn.
  unfold ObjectAt; cbn [Entries perform].
  apply nth_error_upsert_slot.
Qed.

Lemma last_attr_absent (field : string) (attrs : list mxml_attr_t)
      (bound : option string) :
  (forall a, In a attrs -> lower_name a <> map_chars tolower field) ->
  last_attr field attrs bound = bound.
Proof.
  unfold last_attr; revert bound; induction attrs as [|a r IH];
    intros bound H; [reflexivity|].
  cbn [fold_left]. rewrite IH by (intros; apply H; right; assumption).
  unfold bind. destruct (snd a); [|reflexivity].
  rewrite PhEqualBytesZ_eqb.
  destruct (String.eqb_spec (map_chars tolower (fst a))
                            (map_chars tolower field)) as [E|E];
    [|reflexivity].
  exfalso. apply (H a); [left; reflexivity | exact E].
Qed.

Lemma read_attrs_backColor_absent (name : string)
      (attrs : list mxml_attr_t) (children : list mxml_node_t) :
  (forall a, In a attrs -> lower_name a <> "backcolor"%string) ->
  f_backColor (read_attrs (mxml_element name attrs children)) = None.
Proof.
  intros H. unfold read_attrs.
  destruct (2 <=? mxmlElementGetAttrCount (mxml_element name attrs children));
    [|reflexivity].
  cbn [mxmlElementGetAttrs].
  change (fold_left read_attr attrs no_fields)
    with (node_fields attrs no_fields).
  rewrite node_fields_last_attr. cbn [f_backColor no_fields].
  apply last_attr_absent. exact H.
Qed.

(** C6, as the claim states it, fails: an element with a tag and a
    name and no back color attribute does not always leave the
    all-bits-set back color.  The second of two elements with the same
    key has no back color attribute, and the record keeps the back color
    255 the first one gave it. *)
Lemma backcolor_absent_counterexample :
  f_tag (read_attrs plain_element) = Some "3"%string
  /\ f_name (read_attrs plain_element) = Some "a.exe"%string
  /\ map fst (mxmlElementGetAttrs plain_element) = ["tag"; "name"]%string
  /\ ObjectAt (LoadDbNode plain_element
                          (LoadDbNode colored_element InitializeDb)) O
     = Some (mkObject 3 "a.exe" EmptyString 0 0 255 false 0)
  /\ LoadDb recolored_file InitializeDb
     = (STATUS_SUCCESS,
        mkTable 64 [mkObject 3 "a.exe" EmptyString 0 0 255 false 0])
  /\ BackColor (mkObject 3 "a.exe" EmptyString 0 0 255 false 0)
     <> ULONG_MAX.
Proof. repeat split; simpl; try reflexivity; discriminate. Qed.

(** C6, amended.  An element that binds a tag and a name.  When it has
    no back color attribute (in any letter case) the record keeps its
    back color: the all-bits-set back color of a new record when the
    element creates the record, the back color it had when the key is
    already in the store.  When the back color attribute is there and its
    text is not a run of decimal digits, the back color of the record is
    0. *)
Theorem backcolor_absent_or_unparseable (name : string)
        (attrs : list mxml_attr_t) (children : list mxml_node_t)
        (T : PH_HASHTABLE) (tag nm : string) :
  let currentNode := mxml_element name attrs children in
  f_tag (read_attrs currentNode) = Some tag ->
  f_name (read_attrs currentNode) = Some nm ->
  let Tag0 := to_ULONG (PhStringToInteger64 tag 10 0) in
  let object := slot_of (new_object Tag0 nm) (Entries T) in
  let T' := LoadDbNode currentNode T in
  ((forall a, In a attrs -> lower_name a <> "backcolor"%string) ->
   (FindDbObject Tag0 nm T = None ->
    exists o, ObjectAt T' object = Some o /\ BackColor o = ULONG_MAX)
   /\ (forall old, ObjectAt T object = Some old ->
       exists o, ObjectAt T' object = Some o
                 /\ BackColor o = BackColor old))
  /\ (forall text,
         f_backColor (read_attrs currentNode) = Some text ->
         all_digits text = false ->
         exists o, ObjectAt T' object = Some o /\ BackColor o = 0).
Proof.
  intros currentNode Ht Hn Tag0 object T'.
  pose proof (LoadDbNode_object currentNode T tag nm Ht Hn) as H.
  cbv zeta in H. fold Tag0 object T' in H.
  split.
  - intros A.
    pose proof (read_attrs_backColor_absent name attrs children A) as B.
    fold currentNode in B.
    split.
    + intros F. rewrite FindDbObject_find_from in F.
      assert (N : ObjectAt T object = None).
      { unfold object, slot_of, ObjectAt. rewrite F.
        apply nth_error_None; lia. }
      rewrite N in H. eexists; split; [exact H|].
      unfold apply_override, node_override; cbn. rewrite B. reflexivity.
    + intros old O. rewrite O in H. eexists; split; [exact H|].
      unfold apply_override, node_override; cbn. rewrite B. reflexivity.
  - intros text B D. eexists; split; [exact H|].
    unfold apply_override, node_override; cbn. rewrite B; cbn.
    rewrite PhStringToInteger64_not_digits by exact D. reflexivity.
Qed.

Lemma backcolor_absent_or_unparseable_witness :
  (* no back color attribute, a new key *)
  (exists o,
      ObjectAt (LoadDbNode (mxml_element "object"
                              [("tag", Some "3"); ("name", Some "a.exe")]
                              [mxml_opaque "x"])%string InitializeDb) O
      = Some o /\ BackColor o = ULONG_MAX)
  (* no back color attribute, a key that is already there *)
  /\ (exists o,
         ObjectAt (LoadDbNode plain_element
                              (LoadDbNode colored_element InitializeDb)) O
         = Some o /\ BackColor o = 255)
  (* an unparseable back color attribute *)
  /\ (exists o,
         ObjectAt (LoadDbNode (mxml_element "object"
                                 [("tag", Some "3"); ("name", Some "a.exe");
                                  ("backcolor", Some "notanumber")]
                                 [mxml_opaque "x"])%string InitializeDb) O
         = Some o /\ BackColor o = 0).
Proof.
  split; [|split].
  - apply (proj1 (backcolor_absent_or_unparseable "object"
             [("tag", Some "3"); ("name", Some "a.exe")]%string
             [mxml_opaque "x"] InitializeDb "3" "a.exe"
             eq_refl eq_refl)).
    + simpl. intros a [<-|[<-|[]]]; discriminate.
    + reflexivity.
  - assert (A : forall a : mxml_attr_t,
               In a [("tag", Some "3"); ("name", Some "a.exe")]%string ->
               lower_name a <> "backcolor"%string)
      by (simpl; intros a [<-|[<-|[]]]; discriminate).
    destruct (proj1 (backcolor_absent_or_unparseable "object"
                [("tag", Some "3"); ("name", Some "a.exe")]%string
                [] (LoadDbNode colored_element InitializeDb) "3" "a.exe"
                eq_refl eq_refl) A) as [_ Hkeep].
    exact (Hkeep (mkObject 3 "a.exe" EmptyString 0 0 255 false 0) eq_refl).
  - apply (proj2 (backcolor_absent_or_unparseable "object"
             [("tag", Some "3"); ("name", Some "a.exe");
              ("backcolor", Some "notanumber")]%string
             [mxml_opaque "x"] InitializeDb "3" "a.exe"
             eq_refl eq_refl) "notanumber"%string).
    + reflexivity.
    + reflexivity.
Defined.

(** ** Integer attributes *)

(** C8, as the claim states it, fails: a tag of 2^32 + 1 and a priority
    class of 2^32 + 2 decode to the wrapped values 1 and 2, not to 0. *)
Lemma integer_attributes_counterexample :
  LoadDb wide_tag_file InitializeDb
  = (STATUS_SUCCESS,
     mkTable 64 [mkObject 1 "a.exe" EmptyString 2 0 ULONG_MAX false 0])
  /\ Tag (mkObject 1 "a.exe" EmptyString 2 0 ULONG_MAX false 0) <> 0
  /\ PriorityClass (mkObject 1 "a.exe" EmptyString 2 0 ULONG_MAX false 0)
     <> 0.
Proof. repeat split; simpl; try reflexivity; discriminate. Qed.

(** C8, amended.  Every present integer attribute is parsed in base 10,
    unsigned: a text that is not a run of decimal digits (a sign, a
    fraction, letters) or whose value does not fit 64 bits is read as 0,
    whatever the variable held before the call, the all-bits-set value of
    the back color included, and nothing of this fails the decode.  The
    value read is then truncated to the width of the field: the tag, the
    priority class, the I/O priority and the back color keep it modulo
    2^32, so the text of 2^32 decodes to 0 and the text of 2^32 + 1 to
    1; the affinity mask keeps all 64 bits. *)
Theorem integer_attributes_decode (currentNode : mxml_node_t)
        (T : PH_HASHTABLE) (tag nm : string) :
  f_tag (read_attrs currentNode) = Some tag ->
  f_name (read_attrs currentNode) = Some nm ->
  let fields := read_attrs currentNode in
  let Tag0 := to_ULONG (PhStringToInteger64 tag 10 0) in
  let object := slot_of (new_object Tag0 nm) (Entries T) in
  let T' := LoadDbNode currentNode T in
  (* the parser *)
  (forall text Integer,
      all_digits text = false -> PhStringToInteger64 text 10 Integer = 0)
  /\ (forall text Integer,
         all_digits text = true -> ULONG64_MAX < decimal_value text ->
         PhStringToInteger64 text 10 Integer = 0)
  /\ (forall text Integer,
         all_digits text = true -> decimal_value text <= ULONG64_MAX ->
         PhStringToInteger64 text 10 Integer = decimal_value text)
  (* the decode goes on *)
  /\ (forall file topNode,
         NT_SUCCESS (CreateFileStatus file) = true ->
         TopNode file = Some topNode ->
         In currentNode (mxmlGetChildren topNode) ->
         NT_SUCCESS (fst (LoadDb file T)) = true)
  (* the fields *)
  /\ exists o,
      ObjectAt T' object = Some o
      /\ Tag o = PhStringToInteger64 tag 10 0 mod 2 ^ 32
      /\ (forall text, f_priorityClass fields = Some text ->
          PriorityClass o = PhStringToInteger64 text 10 0 mod 2 ^ 32)
      /\ (forall text, f_ioPriorityPlusOne fields = Some text ->
          IoPriorityPlusOne o = PhStringToInteger64 text 10 0 mod 2 ^ 32)
      /\ (forall text, f_backColor fields = Some text ->
          BackColor o = PhStringToInteger64 text 10 ULONG_MAX mod 2 ^ 32)
      /\ (forall text, f_collapse fields = Some text ->
          Collapse o = negb (PhStringToInteger64 text 10 0 =? 0))
      /\ (forall text, f_affinityMask fields = Some text ->
          AffinityMask o = PhStringToInteger64 text 10 0).
Proof.
  intros Ht Hn fields Tag0 object T'.
  split; [exact PhStringToInteger64_not_digits|].
  split.
  { intros text Integer D L. rewrite PhStringToInteger64_digits by exact D.
    destruct (Z.leb_spec (decimal_value text) ULONG64_MAX);
      [lia | reflexivity]. }
  split.
  { intros text Integer D L. rewrite PhStringToInteger64_digits by exact D.
    destruct (Z.leb_spec (decimal_value text) ULONG64_MAX);
      [reflexivity | lia]. }
  split.
  { intros file topNode Hs Hf Hc. unfold LoadDb. rewrite Hs, Hf.
    assert (E : is_element topNode = true)
      by (destruct topNode; simpl in Hc; try contradiction; reflexivity).
    rewrite E. cbn [negb].
    destruct (FileSize file) as [[| |]|]; cbn [fst]; auto. }
  pose proof (LoadDbNode_object currentNode T tag nm Ht Hn) as H.
  cbv zeta in H. fold Tag0 object T' fields in H.
  eexists; split; [exact H|].
  unfold apply_override, node_override; cbn.
  split.
  { destruct (ObjectAt T object) as [old|] eqn:O; [|reflexivity].
    unfold object, slot_of, ObjectAt in O.
    destruct (find_from (new_object Tag0 nm) 0 (Entries T)) as [p|] eqn:F.
    - destruct (find_from_Some _ _ _ F) as [e [He Hk]].
      rewrite He in O. inversion O; subst e.
      unfold key_of in Hk; simpl in Hk. injection Hk as Hk _.
      rewrite Hk. reflexivity.
    - assert (N : nth_error (Entries T) (List.length (Entries T)) = None)
        by (apply nth_error_None; lia).
      rewrite N in O. discriminate. }
  repeat split; intros text E; rewrite E; cbn; try reflexivity.
  apply to_ULONG64_small, PhStringToInteger64_range.
Qed.

Lemma integer_attributes_decode_witness :
  exists o,
    ObjectAt (LoadDbNode (mxml_element "object"
                            [("tag", Some "4294967296");
                             ("name", Some "a.exe");
                             ("priorityclass", Some "-5");
                             ("iopriorityplusone", Some "1.5");
                             ("backcolor", Some "4294967297");
                             ("affinity", Some "18446744073709551616")]
                            [])%string InitializeDb) O = Some o
    /\ Tag o = 0
    /\ PriorityClass o = 0
    /\ IoPriorityPlusOne o = 0
    /\ BackColor o = 1
    /\ AffinityMask o = 0.
Proof.
  destruct (integer_attributes_decode
              (mxml_element "object"
                 [("tag", Some "4294967296"); ("name", Some "a.exe");
                  ("priorityclass", Some "-5");
                  ("iopriorityplusone", Some "1.5");
                  ("backcolor", Some "4294967297");
                  ("affinity", Some "18446744073709551616")] [])%string
              InitializeDb "4294967296" "a.exe" eq_refl eq_refl)
    as (_ & _ & _ & _ & o & Ho & Ht & Hp & Hi & Hb & _ & Ha).
  exists o. split; [exact Ho|].
  split; [exact Ht|].
  split; [exact (Hp _ eq_refl)|].
  split; [exact (Hi _ eq_refl)|].
  split; [exact (Hb _ eq_refl)|].
  exact (Ha _ eq_refl).
Defined.

(** ** Attributes bind ignoring letter case *)

Lemma last_attr_unbound (field : string) (attrs : list mxml_attr_t)
      (bound : option string) :
  (forall a, In a attrs ->
             lower_name a <> map_chars tolower field \/ snd a = None) ->
  last_attr field attrs bound = bound.
Proof.
  unfold last_attr; revert bound; induction attrs as [|a r IH];
    intros bound H; [reflexivity|].
  cbn [fold_left]. rewrite IH by (intros; apply H; right; assumption).
  unfold bind. destruct (snd a) eqn:V; [|reflexivity].
  rewrite PhEqualBytesZ_eqb.
  destruct (String.eqb_spec (map_chars tolower (fst a))
                            (map_chars tolower field)) as [E|E];
    [|reflexivity].
  exfalso. destruct (H a (or_introl eq_refl)) as [X|X];
    [apply X; exact E | congruence].
Qed.

Lemma last_attr_last_wins (field : string)
      (before after : list mxml_attr_t) (n v : string)
      (bound : option string) :
  map_chars tolower n = map_chars tolower field ->
  (forall a, In a after ->
             lower_name a <> map_chars tolower field \/ snd a = None) ->
  last_attr field (before ++ (n, Some v) :: after) bound = Some v.
Proof.
  intros E H. unfold last_attr. rewrite fold_left_app. cbn [fold_left].
  fold (last_attr field before bound).
  fold (last_attr field after
                  (bind field (last_attr field before bound) (n, Some v))).
  rewrite (last_attr_unbound field after _ H).
  unfold bind; cbn [fst snd]. rewrite PhEqualBytesZ_eqb, E, String.eqb_refl.
  reflexivity.
Qed.

(** C7, amended.  During decode the seven named fields are matched by
    name ignoring letter case.  Each field is bound to the value of the
    last attribute with a value whose name is the name of the field up to
    letter case, so that "Tag" or "BACKCOLOR" bind like "tag" and
    "backcolor", and the record of the element receives the bound values.
    Changing the letter case of attribute names does not change what an
    element does to the store.  The attributes may come in any order when
    no two of them have the same name up to letter case (of several with
    the same name the last one wins), and an attribute whose name is none
    of the seven, in any letter case, is ignored wherever it stands. *)
Theorem attributes_bind_ignoring_case (name : string)
        (attrs attrs' : list mxml_attr_t) (children : list mxml_node_t)
        (T : PH_HASHTABLE) :
  let currentNode := mxml_element name attrs children in
  let fields := read_attrs currentNode in
  (* each field is bound by the last attribute of its name *)
  (forall field n v before after,
      In field field_names ->
      map_chars tolower n = field ->
      attrs = before ++ (n, Some v) :: after ->
      (forall a, In a after -> lower_name a <> field \/ snd a = None) ->
      (2 <= List.length attrs)%nat ->
      field_value field fields = Some v)
  (* the record receives the bound values *)
  /\ (forall tag nm,
         f_tag fields = Some tag -> f_name fields = Some nm ->
         exists o,
           ObjectAt (LoadDbNode currentNode T)
                    (slot_of (new_object
                                (to_ULONG (PhStringToInteger64 tag 10 0))
                                nm)
                             (Entries T)) = Some o
           /\ Tag o = to_ULONG (PhStringToInteger64 tag 10 0)
           /\ PhEqualStringRef (Name o) nm true = true
           /\ PriorityClass o
              = to_ULONG (parse_or (f_priorityClass fields) 0)
           /\ IoPriorityPlusOne o
              = to_ULONG (parse_or (f_ioPriorityPlusOne fields) 0)
           /\ (forall text, f_backColor fields = Some text ->
               BackColor o
               = to_ULONG (PhStringToInteger64 text 10 ULONG_MAX))
           /\ (forall text, f_collapse fields = Some text ->
               Collapse o = negb (PhStringToInteger64 text 10 0 =? 0))
           /\ (forall text, f_affinityMask fields = Some text ->
               AffinityMask o
               = to_ULONG64 (PhStringToInteger64 text 10 0)))
  (* letter case *)
  /\ (Forall2 same_attr attrs attrs' ->
      LoadDbNode (mxml_element name attrs children) T
      = LoadDbNode (mxml_element name attrs' children) T)
  (* order *)
  /\ (Permutation attrs attrs' -> NoDup (map lower_name attrs) ->
      LoadDbNode (mxml_element name attrs children) T
      = LoadDbNode (mxml_element name attrs' children) T)
  (* unknown names *)
  /\ (forall a before after,
         unrecognized a -> attrs = before ++ a :: after ->
         LoadDbNode (mxml_element name attrs children) T
         = LoadDbNode (mxml_element name (before ++ after) children) T).
Proof.
  intros currentNode fields. subst fields currentNode.
  split.
  { intros field n v before after F E -> H L.
    unfold read_attrs, mxmlElementGetAttrCount.
    cbn [mxmlElementGetAttrs].
    match goal with
    | |- context [2 <=? ?x] =>
        replace (2 <=? x) with true by (symmetry; apply Z.leb_le; lia)
    end.
    match goal with
    | |- context [fold_left read_attr ?l no_fields] =>
        change (fold_left read_attr l no_fields)
          with (node_fields l no_fields)
    end.
    rewrite node_fields_last_attr.
    unfold field_names in F; simpl in F.
    repeat (destruct F as [<-|F];
            [cbn [field_value String.eqb Ascii.eqb Bool.eqb f_tag f_name
                  f_priorityClass f_ioPriorityPlusOne f_backColor
                  f_collapse f_affinityMask no_fields];
             apply last_attr_last_wins; [exact E | exact H] |]).
    contradiction. }
  split.
  { intros tag nm Ht Hn.
    pose proof (LoadDbNode_object _ T tag nm Ht Hn) as H.
    cbv zeta in H.
    set (Tag0 := to_ULONG (PhStringToInteger64 tag 10 0)) in *.
    set (object := slot_of (new_object Tag0 nm) (Entries T)) in *.
    eexists; split; [exact H|].
    assert (K : Tag (match ObjectAt T object with
                     | Some o => o
                     | None => new_object Tag0 nm
                     end) = Tag0
                /\ PhUpperString
                     (Name (match ObjectAt T object with
                            | Some o => o
                            | None => new_object Tag0 nm
                            end)) = PhUpperString nm).
    { destruct (ObjectAt T object) as [old|] eqn:Eo;
        [|split; reflexivity].
      unfold object, slot_of, ObjectAt in Eo.
      destruct (find_from (new_object Tag0 nm) 0 (Entries T))
        as [p|] eqn:F.
      - destruct (find_from_Some _ _ _ F) as [e [He Hk]].
        rewrite He in Eo. injection Eo as <-.
        unfold key_of in Hk; simpl in Hk. injection Hk as Hk1 Hk2.
        split; assumption.
      - assert (N : nth_error (Entries T) (List.length (Entries T))
                    = None) by (apply nth_error_None; lia).
        rewrite N in Eo. discriminate. }
    destruct K as [K1 K2].
    unfold apply_override, node_override; cbn.
    split; [exact K1|].
    split; [apply PhEqualStringRef_upper; exact K2|].
    repeat split; try (intros text E; rewrite E; reflexivity). }
  rewrite !LoadDbNode_fields. cbn [mxmlElementGetAttrs].
  split; [|split].
  - intros H. rewrite (node_fields_same_attr attrs attrs' _ H). reflexivity.
  - intros P D. rewrite (node_fields_permutation attrs attrs' _ P D).
    reflexivity.
  - intros a before after U ->. rewrite LoadDbNode_fields.
    cbn [mxmlElementGetAttrs].
    rewrite (node_fields_unrecognized before after a _ U). reflexivity.
Qed.

Lemma attributes_bind_ignoring_case_witness :
  (* "Tag" and "BACKCOLOR" bind *)
  field_value "tag"
    (read_attrs (mxml_element "object"
                   [("Tag", Some "7"); ("name", Some "calc.exe");
                    ("BACKCOLOR", Some "255")] [])%string)
  = Some "7"%string
  /\ (exists o,
         ObjectAt (LoadDbNode (mxml_element "object"
                                 [("Tag", Some "7");
                                  ("name", Some "calc.exe");
                                  ("BACKCOLOR", Some "255")] [])%string
                              InitializeDb) O = Some o
         /\ Tag o = 7 /\ BackColor o = 255)
  (* letter case *)
  /\ LoadDbNode (mxml_element "object"
                   [("Tag", Some "7"); ("name", Some "calc.exe");
                    ("BACKCOLOR", Some "255")] [])%string InitializeDb
     = LoadDbNode (mxml_element "object"
                     [("tag", Some "7"); ("name", Some "calc.exe");
                      ("backcolor", Some "255")] [])%string InitializeDb
  (* order *)
  /\ LoadDbNode (mxml_element "object"
                   [("Tag", Some "7"); ("name", Some "calc.exe");
                    ("BACKCOLOR", Some "255")] [])%string InitializeDb
     = LoadDbNode (mxml_element "object"
                     [("BACKCOLOR", Some "255"); ("Tag", Some "7");
                      ("name", Some "calc.exe")] [])%string InitializeDb
  (* an unknown name *)
  /\ LoadDbNode (mxml_element "object"
                   [("tag", Some "7"); ("color", Some "1");
                    ("name", Some "calc.exe")] [])%string InitializeDb
     = LoadDbNode (mxml_element "object"
                     [("tag", Some "7"); ("name", Some "calc.exe")] [])%string
                  InitializeDb.
Proof.
  split; [|split; [|split; [|split]]].
  - apply (proj1 (attributes_bind_ignoring_case "object"
             [("Tag", Some "7"); ("name", Some "calc.exe");
              ("BACKCOLOR", Some "255")]%string [] [] InitializeDb)
             "tag" "Tag" "7" []
             [("name", Some "calc.exe"); ("BACKCOLOR", Some "255")])%string.
    + simpl; tauto.
    + reflexivity.
    + reflexivity.
    + simpl. intros a [<-|[<-|[]]]; left; discriminate.
    + simpl; lia.
  - destruct (proj1 (proj2 (attributes_bind_ignoring_case "object"
                [("Tag", Some "7"); ("name", Some "calc.exe");
                 ("BACKCOLOR", Some "255")]%string [] [] InitializeDb))
                "7"%string "calc.exe"%string eq_refl eq_refl)
      as (o & Ho & Ht & _ & _ & _ & Hb & _).
    exists o. split; [exact Ho|]. split; [exact Ht|].
    exact (Hb "255"%string eq_refl).
  - apply (proj1 (proj2 (proj2 (attributes_bind_ignoring_case "object"
             [("Tag", Some "7"); ("name", Some "calc.exe");
              ("BACKCOLOR", Some "255")]%string
             [("tag", Some "7"); ("name", Some "calc.exe");
              ("backcolor", Some "255")]%string [] InitializeDb)))).
    repeat constructor.
  - apply (proj1 (proj2 (proj2 (proj2 (attributes_bind_ignoring_case
             "object"
             [("Tag", Some "7"); ("name", Some "calc.exe");
              ("BACKCOLOR", Some "255")]%string
             [("BACKCOLOR", Some "255"); ("Tag", Some "7");
              ("name", Some "calc.exe")]%string [] InitializeDb))))).
    + apply Permutation_sym.
      apply (Permutation_cons_app [_; _] []). apply Permutation_refl.
    + simpl. repeat constructor; simpl; intuition discriminate.
  - apply (proj2 (proj2 (proj2 (proj2 (attributes_bind_ignoring_case
             "object"
             [("tag", Some "7"); ("color", Some "1");
              ("name", Some "calc.exe")]%string [] [] InitializeDb))))
             ("color", Some "1") [("tag", Some "7")]
             [("name", Some "calc.exe")])%string.
    + unfold unrecognized; simpl. intuition discriminate.
    + reflexivity.
Defined.

(** * Further properties of the store *)

(** ** Lookup, in general *)

(** X1.  [FindDbObject] is sound and complete.  The record it returns has
    the tag asked for and a name equal to the name asked for up to letter
    case; it returns nothing only when no live record has that tag and
    such a name. *)
Theorem FindDbObject_sound_complete (t : Z) (n : string)
        (T : PH_HASHTABLE) :
  match FindDbObject t n T with
  | Some object =>
      exists o, ObjectAt T object = Some o /\ Tag o = t
                /\ PhEqualStringRef (Name o) n true = true
  | None =>
      forall object o,
        ObjectAt T object = Some o -> Tag o = t ->
        PhEqualStringRef (Name o) n true = false
  end.
Proof.
  rewrite FindDbObject_find_from.
  destruct (find_from (new_object t n) 0 (Entries T)) as [p|] eqn:F.
  - destruct (find_from_Some _ _ _ F) as [o [Ho Hk]].
    exists o. unfold key_of in Hk; simpl in Hk. injection Hk as Ht Hn.
    split; [exact Ho|]. split; [exact Ht|].
    apply PhEqualStringRef_upper. exact Hn.
  - intros p o Ho Ht.
    destruct (PhEqualStringRef (Name o) n true) eqn:E; [|reflexivity].
    exfalso. apply find_from_None in F. apply F.
    apply PhEqualStringRef_upper in E.
    replace (key_of (new_object t n)) with (key_of o)
      by (unfold key_of; simpl; congruence).
    apply in_map. eapply nth_error_In. exact Ho.
Qed.

(** X2.  The equality and hash functions of the table agree.  Equality
    is reflexive, symmetric and transitive; two records that are equal
    have the same hash code; the hash code is a 32-bit value; and the
    result of a lookup does not depend on the number of buckets. *)
Theorem ObjectDb_equality_hash_contract (o1 o2 o3 : DB_OBJECT) :
  ObjectDbEqualFunction o1 o1 = true
  /\ ObjectDbEqualFunction o1 o2 = ObjectDbEqualFunction o2 o1
  /\ (ObjectDbEqualFunction o1 o2 = true ->
      ObjectDbEqualFunction o2 o3 = true ->
      ObjectDbEqualFunction o1 o3 = true)
  /\ (ObjectDbEqualFunction o1 o2 = true ->
      ObjectDbHashFunction o1 = ObjectDbHashFunction o2)
  /\ is_ULONG (ObjectDbHashFunction o1)
  /\ (forall buckets1 buckets2 entries,
         PhFindEntryHashtable (mkTable buckets1 entries) o1
         = PhFindEntryHashtable (mkTable buckets2 entries) o1).
Proof.
  split; [apply ObjectDbEqualFunction_refl|].
  split.
  { destruct (ObjectDbEqualFunction o1 o2) eqn:E1,
             (ObjectDbEqualFunction o2 o1) eqn:E2; auto.
    - apply ObjectDbEqualFunction_key in E1.
      assert (X : ObjectDbEqualFunction o2 o1 = true)
        by (apply ObjectDbEqualFunction_key; congruence).
      congruence.
    - apply ObjectDbEqualFunction_key in E2.
      assert (X : ObjectDbEqualFunction o1 o2 = true)
        by (apply ObjectDbEqualFunction_key; congruence).
      congruence. }
  split.
  { intros E1 E2. apply ObjectDbEqualFunction_key in E1, E2.
    apply ObjectDbEqualFunction_key. congruence. }
  split.
  { intros E. apply ObjectDbHashFunction_key, ObjectDbEqualFunction_key, E. }
  split.
  { unfold is_ULONG, ObjectDbHashFunction, to_ULONG, ULONG_MAX.
    pose proof (Z.mod_pos_bound
                  (Tag o1 + PhHashStringRef (Key o1) true) 4294967296
                  ltac:(lia)).
    lia. }
  intros b1 b2 es. rewrite !PhFindEntryHashtable_find_from. reflexivity.
Qed.

(** ** Creating and deleting *)

Lemma length_upsert (lookup : DB_OBJECT) (f : DB_OBJECT -> DB_OBJECT)
      (entries : list DB_OBJECT) :
  List.length (upsert lookup f entries)
  = match find_from lookup 0 entries with
    | Some _ => List.length entries
    | None => S (List.length entries)
    end.
Proof.
  induction entries as [|e r IH]; [reflexivity|]. simpl.
  destruct (ObjectDbEqualFunction e lookup); [reflexivity|].
  simpl. rewrite IH, find_from_shift.
  destruct (find_from lookup 0 r); reflexivity.
Qed.

(** X3.  [CreateDbObject] and the count: the number of records grows by
    exactly one when the key is new and does not change when a record
    with the key is already there. *)
Theorem GetNumberOfDbObjects_CreateDbObject (t : Z) (n : string)
        (c : option string) (T : PH_HASHTABLE) :
  GetNumberOfDbObjects (snd (CreateDbObject t n c T))
  = match FindDbObject t n T with
    | Some _ => GetNumberOfDbObjects T
    | None => GetNumberOfDbObjects T + 1
    end.
Proof.
  rewrite CreateDbObject_upsert, FindDbObject_find_from.
  unfold GetNumberOfDbObjects; simpl. rewrite length_upsert.
  destruct (find_from (new_object t n) 0 (Entries T)); lia.
Qed.

Lemma remove_at_last {A : Type} (l : list A) (x : A) :
  remove_at (List.length l) (l ++ [x]) = l.
Proof. induction l as [|y r IH]; simpl; [|rewrite IH]; reflexivity. Qed.

Lemma nth_error_last {A : Type} (l : list A) (x : A) :
  nth_error (l ++ [x]) (List.length l) = Some x.
Proof. induction l as [|y r IH]; simpl; auto. Qed.

Lemma find_from_app_absent (lookup x : DB_OBJECT)
      (entries : list DB_OBJECT) :
  find_from lookup 0 entries = None ->
  key_of x = key_of lookup ->
  find_from x 0 (entries ++ [x]) = Some (List.length entries).
Proof.
  intros F K. rewrite (find_from_congr x lookup _ _ K).
  induction entries as [|e r IH]; simpl in *.
  - rewrite (ObjectDbEqualFunction_congr _ _ _ K),
      ObjectDbEqualFunction_refl. reflexivity.
  - destruct (ObjectDbEqualFunction e lookup); [discriminate|].
    rewrite find_from_shift in F |- *.
    destruct (find_from lookup 0 r); [discriminate|].
    rewrite IH by reflexivity. reflexivity.
Qed.

(** X4.  Creating a record under a new key and deleting it at once gives
    back the store as it was. *)
Theorem CreateDbObject_DeleteDbObject (t : Z) (n : string)
        (c : option string) (T : PH_HASHTABLE) :
  FindDbObject t n T = None ->
  DeleteDbObject (fst (CreateDbObject t n c T))
                 (snd (CreateDbObject t n c T)) = T.
Proof.
  rewrite CreateDbObject_upsert, FindDbObject_find_from. intros F.
  cbn [fst snd]. rewrite (upsert_absent _ _ _ F).
  unfold slot_of. rewrite F.
  unfold DeleteDbObject, ObjectAt. cbn [Entries].
  rewrite nth_error_last.
  unfold PhRemoveEntryHashtable.
  rewrite PhFindEntryHashtable_find_from. cbn [Entries AllocatedBuckets].
  rewrite (find_from_app_absent (new_object t n)) by
      (auto; apply keeps_key_set_Comment_opt).
  rewrite remove_at_last. destruct T; reflexivity.
Qed.

Lemma CreateDbObject_DeleteDbObject_witness :
  DeleteDbObject
    (fst (CreateDbObject 6 "Bar" (Some "x"%string) sample_store))
    (snd (CreateDbObject 6 "Bar" (Some "x"%string) sample_store))
  = sample_store.
Proof.
  apply (CreateDbObject_DeleteDbObject 6 "Bar" (Some "x"%string)
                                       sample_store).
  reflexivity.
Defined.

Lemma upsert_again (l l' : DB_OBJECT) (f g : DB_OBJECT -> DB_OBJECT)
      (entries : list DB_OBJECT) :
  key_of l' = key_of l -> keeps_key f -> (forall o, g (f o) = f o) ->
  upsert l' g (upsert l f entries) = upsert l f entries.
Proof.
  intros K Kf G.
  assert (X : forall e, ObjectDbEqualFunction e l'
                        = ObjectDbEqualFunction e l)
    by (intros e; apply ObjectDbEqualFunction_congr_r; exact K).
  induction entries as [|e r IH]; simpl.
  - rewrite X, (ObjectDbEqualFunction_congr _ _ _ (Kf l)),
      ObjectDbEqualFunction_refl, G. reflexivity.
  - destruct (ObjectDbEqualFunction e l) eqn:E; simpl.
    + rewrite X, (ObjectDbEqualFunction_congr _ _ _ (Kf e)), E, G.
      reflexivity.
    + rewrite X, E, IH. reflexivity.
Qed.

(** X5.  [CreateDbObject] is idempotent.  Calling it again on the same
    key, the name in any letter case, with the same comment or with no
    comment, returns the same record and leaves the store as the first
    call left it. *)
Theorem CreateDbObject_again (t : Z) (n n' : string)
        (c c' : option string) (T : PH_HASHTABLE) :
  PhEqualStringRef n n' true = true ->
  c' = None \/ c' = c ->
  CreateDbObject t n' c' (snd (CreateDbObject t n c T))
  = CreateDbObject t n c T.
Proof.
  intros E C. apply PhEqualStringRef_upper in E.
  assert (K : key_of (new_object t n') = key_of (new_object t n))
    by (unfold key_of; simpl; congruence).
  rewrite !CreateDbObject_upsert. cbn [snd Entries AllocatedBuckets].
  f_equal.
  - unfold slot_of at 1.
    rewrite (find_from_congr _ _ _ _ K),
      (find_from_upsert_same _ _ _ (keeps_key_set_Comment_opt c)).
    reflexivity.
  - f_equal. apply upsert_again; auto using keeps_key_set_Comment_opt.
    intros o. destruct C as [->| ->]; [reflexivity|].
    destruct c; reflexivity.
Qed.

Lemma CreateDbObject_again_witness :
  CreateDbObject 5 "FOO" None
                 (snd (CreateDbObject 5 "Foo" (Some "note"%string)
                                      sample_store))
  = CreateDbObject 5 "Foo" (Some "note"%string) sample_store.
Proof.
  apply (CreateDbObject_again 5 "Foo" "FOO" (Some "note"%string) None
                              sample_store).
  - reflexivity.
  - left; reflexivity.
Defined.

Lemma find_from_unique (entries : list DB_OBJECT) (p : nat)
      (o : DB_OBJECT) :
  distinct_keys entries -> nth_error entries p = Some o ->
  find_from o 0 entries = Some p.
Proof.
  unfold distinct_keys.
  revert p; induction entries as [|e r IH]; intros [|p] D H; simpl in *;
    try discriminate.
  - inversion H; subst. rewrite ObjectDbEqualFunction_refl. reflexivity.
  - apply NoDup_cons_iff in D as [N D].
    destruct (ObjectDbEqualFunction e o) eqn:E.
    + exfalso. apply N. apply ObjectDbEqualFunction_key in E. rewrite E.
      apply in_map. eapply nth_error_In. exact H.
    + rewrite find_from_shift, (IH p D H). reflexivity.
Qed.

Lemma remove_at_not_In {A : Type} (l : list A) (p : nat) (x : A) :
  NoDup l -> nth_error l p = Some x -> ~ In x (remove_at p l).
Proof.
  intros D; revert p; induction D as [|y r N D IH]; intros [|p] H;
    simpl in *; try discriminate.
  - inversion H; subst. exact N.
  - intros [->|X]; [|exact (IH p H X)].
    apply N. eapply nth_error_In. exact H.
Qed.

Lemma length_remove_at {A : Type} (l : list A) (p : nat) (x : A) :
  nth_error l p = Some x ->
  S (List.length (remove_at p l)) = List.length l.
Proof.
  revert p; induction l as [|y r IH]; intros [|p] H; simpl in *;
    try discriminate; [reflexivity|].
  rewrite (IH p H). reflexivity.
Qed.

(** X6.  [DeleteDbObject] removes the record: in a store with distinct
    keys, after the deletion of a live record no lookup under its tag and
    its name, in any letter case, finds a record, and the count is lower
    by exactly one. *)
Theorem DeleteDbObject_removes (Object : PDB_OBJECT) (o : DB_OBJECT)
        (T : PH_HASHTABLE) :
  KeyInvariant T ->
  ObjectAt T Object = Some o ->
  (forall n, PhEqualStringRef (Name o) n true = true ->
             FindDbObject (Tag o) n (DeleteDbObject Object T) = None)
  /\ GetNumberOfDbObjects (DeleteDbObject Object T)
     = GetNumberOfDbObjects T - 1.
Proof.
  intros K H. apply KeyInvariant_distinct_keys in K.
  unfold DeleteDbObject. rewrite H.
  unfold PhRemoveEntryHashtable.
  rewrite PhFindEntryHashtable_find_from.
  unfold ObjectAt in H. rewrite (find_from_unique _ _ _ K H).
  split.
  - intros n E. rewrite FindDbObject_find_from. cbn [Entries].
    apply find_from_None. rewrite map_remove_at.
    apply PhEqualStringRef_upper in E.
    replace (key_of (new_object (Tag o) n)) with (key_of o)
      by (unfold key_of; simpl; congruence).
    apply remove_at_not_In; [exact K|].
    rewrite nth_error_map, H. reflexivity.
  - unfold GetNumberOfDbObjects. cbn [Entries].
    pose proof (length_remove_at _ _ _ H). lia.
Qed.

Lemma DeleteDbObject_removes_witness :
  FindDbObject 1 "NOTEPAD.EXE" (DeleteDbObject O sample_store) = None
  /\ GetNumberOfDbObjects (DeleteDbObject O sample_store) = 1.
Proof.
  destruct (DeleteDbObject_removes
              O (mkObject 1 "notepad.exe" "hello" 2 0 4294967295 true 0)
              sample_store) as [H1 H2].
  - apply KeyInvariant_distinct_keys. unfold distinct_keys; simpl.
    repeat constructor; simpl; intuition discriminate.
  - reflexivity.
  - split; [apply (H1 "NOTEPAD.EXE"%string); reflexivity | exact H2].
Defined.

Lemma FindRecord_find (t : Z) (n : string) (T : PH_HASHTABLE) :
  FindRecord t n T
  = find (fun e => ObjectDbEqualFunction e (new_object t n)) (Entries T).
Proof.
  unfold FindRecord, ObjectAt. rewrite FindDbObject_find_from.
  induction (Entries T) as [|e r IH]; simpl; [reflexivity|].
  destruct (ObjectDbEqualFunction e (new_object t n)); [reflexivity|].
  rewrite find_from_shift.
  destruct (find_from (new_object t n) 0 r); simpl in *; exact IH.
Qed.

Lemma find_remove_at {A : Type} (P : A -> bool) (l : list A) (p : nat)
      (x : A) :
  nth_error l p = Some x -> P x = false ->
  find P (remove_at p l) = find P l.
Proof.
  revert p; induction l as [|y r IH]; intros [|p] H E; simpl in *;
    try discriminate.
  - inversion H; subst. rewrite E. reflexivity.
  - destruct (P y); [reflexivity | apply (IH p H E)].
Qed.

(** X7.  [DeleteDbObject] touches one key only: a lookup under any other
    key finds the same record, field by field, after the deletion as
    before. *)
Theorem DeleteDbObject_other_keys (Object : PDB_OBJECT) (o : DB_OBJECT)
        (t : Z) (n : string) (T : PH_HASHTABLE) :
  ObjectAt T Object = Some o ->
  ~ (t = Tag o /\ PhEqualStringRef (Name o) n true = true) ->
  FindRecord t n (DeleteDbObject Object T) = FindRecord t n T.
Proof.
  intros H N. rewrite !FindRecord_find.
  unfold DeleteDbObject. rewrite H. unfold PhRemoveEntryHashtable.
  rewrite PhFindEntryHashtable_find_from.
  destruct (find_from o 0 (Entries T)) as [i|] eqn:F; [|reflexivity].
  cbn [Entries]. destruct (find_from_Some _ _ _ F) as [e [He Hk]].
  apply (find_remove_at _ _ _ e He).
  rewrite (ObjectDbEqualFunction_congr _ _ _ Hk).
  destruct (ObjectDbEqualFunction o (new_object t n)) eqn:E; [|reflexivity].
  exfalso. apply N. unfold ObjectDbEqualFunction, Key in E; simpl in E.
  apply andb_true_iff in E as [Et En]. apply Z.eqb_eq in Et. auto.
Qed.

Lemma DeleteDbObject_other_keys_witness :
  FindRecord 4294967295 "svc host" (DeleteDbObject O sample_store)
  = FindRecord 4294967295 "svc host" sample_store.
Proof.
  apply (DeleteDbObject_other_keys
           O (mkObject 1 "notepad.exe" "hello" 2 0 4294967295 true 0)).
  - reflexivity.
  - simpl. intros [E _]. discriminate.
Defined.

(** * Further properties of the decoder *)

(** ** Failure and the empty file *)

(** X8.  A load that fails changes nothing: whenever [LoadDb] returns a
    failure status the store is the one it was given.  The status is the
    one of opening the file when the file cannot be opened, and the
    corruption status when the bytes of a file that is not empty do not
    parse. *)
Theorem LoadDb_failure_keeps_store (file : DB_FILE) (T : PH_HASHTABLE) :
  (NT_SUCCESS (fst (LoadDb file T)) = false -> snd (LoadDb file T) = T)
  /\ (NT_SUCCESS (CreateFileStatus file) = false ->
      LoadDb file T = (CreateFileStatus file, T))
  /\ (NT_SUCCESS (CreateFileStatus file) = true ->
      FileSize file <> Some 0 -> TopNode file = None ->
      LoadDb file T = (STATUS_FILE_CORRUPT_ERROR, T)).
Proof.
  split; [|split].
  - destruct (LoadDb_shape file) as [[status H]|[nodes H]]; rewrite H;
      [reflexivity | simpl; discriminate].
  - intros H. unfold LoadDb. rewrite H. reflexivity.
  - intros Hs Hz Ht. unfold LoadDb. rewrite Hs, Ht. cbn [negb].
    destruct (FileSize file) as [[| |]|]; congruence.
Qed.

Lemma LoadDb_failure_keeps_store_witness :
  LoadDb (mkFile STATUS_OBJECT_NAME_NOT_FOUND None None) sample_store
  = (STATUS_OBJECT_NAME_NOT_FOUND, sample_store)
  /\ LoadDb (mkFile STATUS_SUCCESS (Some 12) None) sample_store
     = (STATUS_FILE_CORRUPT_ERROR, sample_store).
Proof.
  split.
  - apply (proj1 (proj2 (LoadDb_failure_keeps_store
             (mkFile STATUS_OBJECT_NAME_NOT_FOUND None None)
             sample_store))).
    reflexivity.
  - apply (proj2 (proj2 (LoadDb_failure_keeps_store
             (mkFile STATUS_SUCCESS (Some 12) None) sample_store))).
    + reflexivity.
    + simpl; discriminate.
    + reflexivity.
Defined.

(** X9.  A blank file is accepted: when the file opens and its size is
    zero, [LoadDb] returns the status of the open, a success, and the
    store as it was given, without looking at a document. *)
Theorem LoadDb_blank_file (file : DB_FILE) (T : PH_HASHTABLE) :
  NT_SUCCESS (CreateFileStatus file) = true ->
  FileSize file = Some 0 ->
  LoadDb file T = (CreateFileStatus file, T)
  /\ NT_SUCCESS (fst (LoadDb file T)) = true.
Proof.
  intros Hs Hz. unfold LoadDb. rewrite Hs, Hz. cbn [negb fst].
  split; [reflexivity | exact Hs].
Qed.

Lemma LoadDb_blank_file_witness :
  LoadDb (mkFile STATUS_SUCCESS (Some 0) None) sample_store
  = (STATUS_SUCCESS, sample_store)
  /\ NT_SUCCESS
       (fst (LoadDb (mkFile STATUS_SUCCESS (Some 0) None) sample_store))
     = true.
Proof.
  apply (LoadDb_blank_file (mkFile STATUS_SUCCESS (Some 0) None)
                           sample_store); reflexivity.
Defined.

(** ** What a load keeps *)

Lemma nth_error_upsert_keeps (lookup : DB_OBJECT) (ov : OVERRIDE)
      (entries : list DB_OBJECT) (p : nat) (o : DB_OBJECT) :
  nth_error entries p = Some o ->
  exists o', nth_error (upsert lookup (apply_override ov) entries) p
             = Some o'
             /\ Tag o' = Tag o /\ Name o' = Name o.
Proof.
  revert p; induction entries as [|e r IH]; intros [|p] H; simpl in *;
    try discriminate.
  - inversion H; subst.
    destruct (ObjectDbEqualFunction o lookup); eexists; simpl; eauto.
  - destruct (ObjectDbEqualFunction e lookup); simpl; eauto.
Qed.

Lemma perform_all_keeps (actions : list ACTION)
      (entries : list DB_OBJECT) (p : nat) (o : DB_OBJECT) :
  nth_error entries p = Some o ->
  exists o', nth_error (perform_all actions entries) p = Some o'
             /\ Tag o' = Tag o /\ Name o' = Name o.
Proof.
  unfold perform_all.
  revert entries o; induction actions as [|a r IH]; intros entries o H;
    simpl; eauto.
  destruct a as [[l ov]|]; simpl; [|apply IH; exact H].
  destruct (nth_error_upsert_keeps l ov entries p o H)
    as (o1 & H1 & Ht & Hn).
  destruct (IH _ _ H1) as (o2 & H2 & Ht2 & Hn2).
  exists o2. repeat split; congruence.
Qed.

Lemma length_perform_all (actions : list ACTION)
      (entries : list DB_OBJECT) :
  (List.length entries <= List.length (perform_all actions entries)
   <= List.length entries + List.length actions)%nat.
Proof.
  unfold perform_all.
  revert entries; induction actions as [|a r IH]; intros entries; simpl;
    [lia|].
  specialize (IH (perform entries a)).
  assert (L : (List.length entries <= List.length (perform entries a)
               <= S (List.length entries))%nat).
  { destruct a as [[l ov]|]; simpl; [|lia]. rewrite length_upsert.
    destruct (find_from l 0 entries); lia. }
  lia.
Qed.

(** X10.  A load only adds and updates.  Every record of the store is
    still there afterwards, at the same place, with its tag and the
    spelling of its name unchanged; the count does not go down, and it
    goes up by at most the number of children of the top node. *)
Theorem LoadDb_keeps_records (file : DB_FILE) (T : PH_HASHTABLE) :
  (forall object o,
      ObjectAt T object = Some o ->
      exists o', ObjectAt (snd (LoadDb file T)) object = Some o'
                 /\ Tag o' = Tag o /\ Name o' = Name o)
  /\ GetNumberOfDbObjects T <= GetNumberOfDbObjects (snd (LoadDb file T))
  /\ GetNumberOfDbObjects (snd (LoadDb file T))
     <= GetNumberOfDbObjects T
        + match TopNode file with
          | Some topNode =>
              Z.of_nat (List.length (mxmlGetChildren topNode))
          | None => 0
          end.
Proof.
  assert (Sh : snd (LoadDb file T) = T
              \/ exists topNode,
                  TopNode file = Some topNode
                  /\ snd (LoadDb file T)
                     = LoadDbNodes (mxmlGetChildren topNode) T).
  { unfold LoadDb.
    destruct (negb (NT_SUCCESS (CreateFileStatus file)));
      [left; reflexivity|].
    destruct (FileSize file) as [[| |]|]; try (left; reflexivity);
      (destruct (TopNode file) as [topNode|]; [|left; reflexivity];
       destruct (negb (is_element topNode)); [left; reflexivity|];
       right; exists topNode; split; reflexivity). }
  destruct Sh as [->|[topNode [Ht ->]]].
  - split; [eauto|]. split; [lia|].
    destruct (TopNode file); unfold GetNumberOfDbObjects; lia.
  - rewrite Ht, LoadDbNodes_perform_all.
    unfold GetNumberOfDbObjects, ObjectAt; cbn [Entries].
    pose proof (length_perform_all
                  (node_actions (mxmlGetChildren topNode)) (Entries T))
      as L.
    unfold node_actions in L at 3. rewrite length_map in L.
    split; [intros p o H; apply perform_all_keeps; exact H | lia].
Qed.

Lemma nth_error_upsert_miss (lookup : DB_OBJECT)
      (f : DB_OBJECT -> DB_OBJECT) (entries : list DB_OBJECT) (p : nat)
      (o : DB_OBJECT) :
  nth_error entries p = Some o ->
  ObjectDbEqualFunction o lookup = false ->
  nth_error (upsert lookup f entries) p = Some o.
Proof.
  intros H E; revert p H; induction entries as [|e r IH]; intros [|p] H;
    simpl in *; try discriminate.
  - inversion H; subst. rewrite E. reflexivity.
  - destruct (ObjectDbEqualFunction e lookup); simpl; auto.
Qed.

Lemma perform_all_miss (actions : list ACTION)
      (entries : list DB_OBJECT) (p : nat) (o : DB_OBJECT) :
  (forall a, In a actions -> hits o a = false) ->
  nth_error entries p = Some o ->
  nth_error (perform_all actions entries) p = Some o.
Proof.
  unfold perform_all.
  revert entries; induction actions as [|a r IH]; intros entries M H;
    simpl; auto.
  apply IH; [intros; apply M; right; assumption|].
  pose proof (M a (or_introl eq_refl)) as Ma.
  destruct a as [[l ov]|]; simpl in *; auto.
  apply nth_error_upsert_miss; assumption.
Qed.

Lemma hits_node_action (currentNode : mxml_node_t) (o : DB_OBJECT) :
  ~ addresses currentNode o -> hits o (node_action currentNode) = false.
Proof.
  intros N. unfold node_action.
  destruct (f_tag (read_attrs currentNode)) as [tag|] eqn:Et;
    [|reflexivity].
  destruct (f_name (read_attrs currentNode)) as [name|] eqn:En;
    [|reflexivity].
  simpl. destruct (ObjectDbEqualFunction _ _) eqn:E; [|reflexivity].
  exfalso. apply N. exists tag, name.
  unfold ObjectDbEqualFunction, Key in E; simpl in E.
  apply andb_true_iff in E as [E1 E2]. apply Z.eqb_eq in E1. auto.
Qed.

(** X11.  A load touches only the keys its document names: a record
    whose key no element of the document addresses is, after the load,
    exactly the record it was. *)
Theorem LoadDb_other_keys (file : DB_FILE) (T : PH_HASHTABLE)
        (object : PDB_OBJECT) (o : DB_OBJECT) :
  ObjectAt T object = Some o ->
  (forall topNode currentNode,
      TopNode file = Some topNode ->
      In currentNode (mxmlGetChildren topNode) ->
      ~ addresses currentNode o) ->
  ObjectAt (snd (LoadDb file T)) object = Some o.
Proof.
  intros H N. unfold LoadDb.
  destruct (negb (NT_SUCCESS (CreateFileStatus file))); [exact H|].
  destruct (FileSize file) as [[| |]|]; try exact H;
    (destruct (TopNode file) as [topNode|]; [|exact H];
     destruct (negb (is_element topNode)); [exact H|];
     cbn [snd]; rewrite LoadDbNodes_perform_all;
     unfold ObjectAt; cbn [Entries];
     apply perform_all_miss; [|exact H];
     unfold node_actions; intros a Ha;
     apply in_map_iff in Ha as [node [<- Hn]];
     apply hits_node_action, (N topNode node eq_refl Hn)).
Qed.

Lemma LoadDb_other_keys_witness :
  ObjectAt (snd (LoadDb twin_file sample_store)) O
  = Some (mkObject 1 "notepad.exe" "hello" 2 0 4294967295 true 0).
Proof.
  apply (LoadDb_other_keys twin_file sample_store O).
  - reflexivity.
  - intros topNode node Ht Hn (tag & name & E1 & E2 & E3 & _).
    injection Ht as <-. simpl in Hn.
    destruct Hn as [<-|[<-|[]]]; simpl in E1; injection E1 as <-;
      simpl in E3; discriminate.
Defined.

(** ** Elements that are skipped, fields that are kept *)

Lemma read_attrs_cases (currentNode : mxml_node_t) :
  read_attrs currentNode = no_fields
  \/ read_attrs currentNode
     = node_fields (mxmlElementGetAttrs currentNode) no_fields.
Proof.
  unfold read_attrs, node_fields.
  destruct (2 <=? mxmlElementGetAttrCount currentNode); auto.
Qed.

Lemma LoadDbNode_unbound (currentNode : mxml_node_t) (T : PH_HASHTABLE) :
  f_tag (read_attrs currentNode) = None
  \/ f_name (read_attrs currentNode) = None ->
  LoadDbNode currentNode T = T.
Proof.
  intros H. rewrite LoadDbNode_perform. unfold node_action.
  destruct H as [-> | H]; [destruct T; reflexivity|].
  rewrite H. destruct (f_tag (read_attrs currentNode)); destruct T;
    reflexivity.
Qed.

(** X12.  Children that are skipped.  A child of the top node that is
    not an element, or has fewer than two attributes, or has no attribute
    with a value named tag in any letter case, or none named name, leaves
    the store exactly as it is. *)
Theorem LoadDbNode_skips (currentNode : mxml_node_t) (T : PH_HASHTABLE) :
  is_element currentNode = false
  \/ mxmlElementGetAttrCount currentNode < 2
  \/ (forall a, In a (mxmlElementGetAttrs currentNode) ->
                lower_name a <> "tag"%string \/ snd a = None)
  \/ (forall a, In a (mxmlElementGetAttrs currentNode) ->
                lower_name a <> "name"%string \/ snd a = None) ->
  LoadDbNode currentNode T = T.
Proof.
  intros [H|[H|[H|H]]]; apply LoadDbNode_unbound.
  - left. destruct currentNode; try discriminate; reflexivity.
  - left. unfold read_attrs.
    apply Z.leb_gt in H. rewrite H. reflexivity.
  - left. destruct (read_attrs_cases currentNode) as [->| ->];
      [reflexivity|].
    rewrite node_fields_last_attr. cbn [f_tag no_fields].
    apply last_attr_unbound. exact H.
  - right. destruct (read_attrs_cases currentNode) as [->| ->];
      [reflexivity|].
    rewrite node_fields_last_attr. cbn [f_name no_fields].
    apply last_attr_unbound. exact H.
Qed.

Lemma LoadDbNode_skips_witness :
  LoadDbNode (mxml_opaque "between"%string) sample_store = sample_store
  /\ LoadDbNode (mxml_element "object"
                   [("tag", Some "1"); ("comment", Some "x");
                    ("name", None)] [])%string sample_store
     = sample_store.
Proof.
  split.
  - apply (LoadDbNode_skips (mxml_opaque "between"%string) sample_store).
    left; reflexivity.
  - apply (LoadDbNode_skips
             (mxml_element "object"
                [("tag", Some "1"); ("comment", Some "x");
                 ("name", None)] [])%string sample_store).
    right; right; right. simpl.
    intros a [<-|[<-|[<-|[]]]]; simpl;
      [left; discriminate | left; discriminate | right; reflexivity].
Defined.

(** X13.  What an element does to a record that is already there.  The
    record keeps its tag and the spelling of its name.  Its comment
    becomes the body text of the element, the empty text when the
    element has no body; its priority class and I/O priority become 0
    when their attributes are absent.  Its collapse flag and its affinity
    mask are kept when their attributes are absent. *)
Theorem LoadDbNode_existing_record (currentNode : mxml_node_t)
        (T : PH_HASHTABLE) (tag nm : string) (old : DB_OBJECT) :
  f_tag (read_attrs currentNode) = Some tag ->
  f_name (read_attrs currentNode) = Some nm ->
  let fields := read_attrs currentNode in
  let Tag0 := to_ULONG (PhStringToInteger64 tag 10 0) in
  let object := slot_of (new_object Tag0 nm) (Entries T) in
  ObjectAt T object = Some old ->
  exists o,
    ObjectAt (LoadDbNode currentNode T) object = Some o
    /\ Tag o = Tag old /\ Name o = Name old
    /\ Comment o = GetOpaqueXmlNodeText currentNode
    /\ (mxmlGetOpaque currentNode = None -> Comment o = EmptyString)
    /\ (f_priorityClass fields = None -> PriorityClass o = 0)
    /\ (f_ioPriorityPlusOne fields = None -> IoPriorityPlusOne o = 0)
    /\ (f_collapse fields = None -> Collapse o = Collapse old)
    /\ (f_affinityMask fields = None ->
        AffinityMask o = AffinityMask old).
Proof.
  intros Ht Hn fields Tag0 object Ho.
  pose proof (LoadDbNode_object currentNode T tag nm Ht Hn) as H.
  cbv zeta in H. fold Tag0 object fields in H. rewrite Ho in H.
  eexists; split; [exact H|].
  unfold apply_override, node_override; cbn.
  repeat split; try (intros E; rewrite E; reflexivity).
  intros E. unfold GetOpaqueXmlNodeText. rewrite E. reflexivity.
Qed.

Lemma LoadDbNode_existing_record_witness :
  exists o,
    ObjectAt (LoadDbNode (mxml_element "object"
                            [("tag", Some "1");
                             ("name", Some "NOTEPAD.EXE")] [])%string
                         sample_store) O = Some o
    /\ Name o = "notepad.exe"%string
    /\ Comment o = EmptyString
    /\ PriorityClass o = 0
    /\ Collapse o = true.
Proof.
  destruct (LoadDbNode_existing_record
              (mxml_element "object"
                 [("tag", Some "1"); ("name", Some "NOTEPAD.EXE")]
                 [])%string
              sample_store "1" "NOTEPAD.EXE"
              (mkObject 1 "notepad.exe" "hello" 2 0 4294967295 true 0)
              eq_refl eq_refl eq_refl)
    as (o & Ho & _ & Hn & _ & Hc & Hp & _ & Hl & _).
  exists o.
  split; [exact Ho|]. split; [exact Hn|].
  split; [exact (Hc eq_refl)|]. split; [exact (Hp eq_refl)|].
  exact (Hl eq_refl).
Defined.

(** ** Every element is found afterwards *)

Lemma find_from_upsert_stays (lookup other : DB_OBJECT)
      (f : DB_OBJECT -> DB_OBJECT) (entries : list DB_OBJECT) :
  keeps_key f ->
  find_from other 0 entries <> None ->
  find_from other 0 (upsert lookup f entries) <> None.
Proof.
  intros K H.
  destruct (ObjectDbEqualFunction other lookup) eqn:E.
  - apply ObjectDbEqualFunction_key in E.
    rewrite (find_from_congr _ _ _ _ E), (find_from_upsert_same _ _ _ K).
    discriminate.
  - rewrite find_from_upsert_other; auto.
    intros X. apply ObjectDbEqualFunction_key in X. congruence.
Qed.

Lemma find_from_perform_all_stays (actions : list ACTION)
      (other : DB_OBJECT) (entries : list DB_OBJECT) :
  find_from other 0 entries <> None ->
  find_from other 0 (perform_all actions entries) <> None.
Proof.
  unfold perform_all.
  revert entries; induction actions as [|a r IH]; intros entries H;
    simpl; auto.
  apply IH. destruct a as [[l ov]|]; simpl; auto.
  apply find_from_upsert_stays; [apply keeps_key_apply_override | exact H].
Qed.

(** X14.  After a successful load every element that binds a tag and a
    name is in the store: a lookup under the decoded tag and the name of
    the element finds a record. *)
Theorem LoadDb_elements_found (file : DB_FILE) (topNode : mxml_node_t)
        (currentNode : mxml_node_t) (tag nm : string)
        (T : PH_HASHTABLE) :
  NT_SUCCESS (CreateFileStatus file) = true ->
  FileSize file <> Some 0 ->
  TopNode file = Some topNode ->
  In currentNode (mxmlGetChildren topNode) ->
  f_tag (read_attrs currentNode) = Some tag ->
  f_name (read_attrs currentNode) = Some nm ->
  FindDbObject (to_ULONG (PhStringToInteger64 tag 10 0)) nm
               (snd (LoadDb file T)) <> None.
Proof.
  intros Hs Hz Ht Hc Etag Ename.
  assert (E : is_element topNode = true)
    by (destruct topNode; simpl in Hc; try contradiction; reflexivity).
  assert (L : snd (LoadDb file T)
              = LoadDbNodes (mxmlGetChildren topNode) T).
  { unfold LoadDb. rewrite Hs, Ht, E. cbn [negb].
    destruct (FileSize file) as [[| |]|]; try reflexivity. congruence. }
  rewrite L, LoadDbNodes_perform_all, FindDbObject_find_from.
  cbn [Entries].
  destruct (in_split _ _ Hc) as (before & after & ->).
  unfold node_actions, perform_all.
  rewrite map_app, fold_left_app. cbn [map fold_left].
  apply find_from_perform_all_stays.
  unfold node_action at 2. rewrite Etag, Ename. cbn [perform].
  rewrite find_from_upsert_same by apply keeps_key_apply_override.
  discriminate.
Qed.

Lemma LoadDb_elements_found_witness :
  FindDbObject 5 "foo" (snd (LoadDb twin_file sample_store)) <> None.
Proof.
  apply (LoadDb_elements_found
           twin_file twin_document
           (mxml_element "object" [("tag", Some "5"); ("name", Some "foo")]
                         [mxml_opaque "second"])%string
           "5" "foo" sample_store).
  - reflexivity.
  - simpl; discriminate.
  - reflexivity.
  - simpl. right; left; reflexivity.
  - reflexivity.
  - reflexivity.
Defined.

(** * Further properties of the encoder *)

(** ** Decimal text *)

Lemma all_digits_format_digits (fuel : nat) (v : Z) (acc : string) :
  all_digits acc = true -> all_digits (format_digits fuel v acc) = true.
Proof.
  revert v acc; induction fuel as [|fuel IH]; intros v acc H; simpl; auto.
  assert (Hm : 0 <= v mod 10 < 10) by (apply Z.mod_pos_bound; lia).
  destruct (digit_char_digit _ Hm) as [D _].
  destruct (v / 10 =? 0); [|apply IH]; simpl; rewrite D; exact H.
Qed.

Lemma format_digits_head (fuel : nat) (v : Z) (acc : string) :
  (0 < fuel)%nat -> 0 <= v < 10 ^ Z.of_nat fuel ->
  exists d rest,
    format_digits fuel v acc = String (digit_char d) rest
    /\ 0 <= d < 10 /\ (d = 0 -> v = 0).
Proof.
  revert v acc; induction fuel as [|fuel IH]; intros v acc F H; [lia|].
  rewrite Nat2Z.inj_succ, Z.pow_succ_r in H by lia.
  pose proof (Z.div_mod v 10 ltac:(lia)) as DM.
  assert (Hm : 0 <= v mod 10 < 10) by (apply Z.mod_pos_bound; lia).
  simpl. destruct (v / 10 =? 0) eqn:E.
  - apply Z.eqb_eq in E. exists (v mod 10), acc.
    split; [reflexivity|]. split; [exact Hm | lia].
  - apply Z.eqb_neq in E.
    assert (Q : 0 < v / 10 < 10 ^ Z.of_nat fuel).
    { split; [|apply Z.div_lt_upper_bound; lia].
      pose proof (Z.div_pos v 10 ltac:(lia) ltac:(lia)). lia. }
    destruct fuel as [|fuel']; [simpl in Q; lia|].
    destruct (IH (v / 10) (String (digit_char (v mod 10)) acc)
                 ltac:(lia) ltac:(lia)) as (d & rest & Ef & Hd & Hz).
    exists d, rest. split; [exact Ef|]. split; [exact Hd | lia].
Qed.

(** X15.  [FormatValueToUtf8] writes the canonical decimal numeral of
    every unsigned 64-bit value: a run of decimal digits, not empty,
    whose positional value is the value printed, and whose first digit is
    0 only for the value 0. *)
Theorem FormatValueToUtf8_canonical (Value : Z) :
  is_ULONG64 Value ->
  all_digits (FormatValueToUtf8 Value) = true
  /\ decimal_value (FormatValueToUtf8 Value) = Value
  /\ exists c rest,
      FormatValueToUtf8 Value = String c rest
      /\ (c = "0"%char -> Value = 0).
Proof.
  unfold is_ULONG64, ULONG64_MAX. intros H.
  assert (B : 0 <= Value < 10 ^ Z.of_nat 20)
    by (change (10 ^ Z.of_nat 20) with 100000000000000000000; lia).
  assert (D : all_digits (FormatValueToUtf8 Value) = true)
    by (apply all_digits_format_digits; reflexivity).
  split; [exact D|]. split.
  - pose proof (parse_format_digits 20 Value EmptyString B) as P.
    fold (FormatValueToUtf8 Value) in P.
    rewrite (parse_digits_decimal _ 0 D) in P. simpl in P.
    injection P as P. exact P.
  - destruct (format_digits_head 20 Value EmptyString ltac:(lia) B)
      as (d & rest & E & Hd & Hz).
    exists (digit_char d), rest. split; [exact E|].
    intros C. apply Hz.
    destruct (digit_char_digit d Hd) as [_ V].
    rewrite C in V. symmetry. exact V.
Qed.

Lemma FormatValueToUtf8_canonical_witness :
  all_digits (FormatValueToUtf8 ULONG64_MAX) = true
  /\ decimal_value (FormatValueToUtf8 ULONG64_MAX) = ULONG64_MAX
  /\ exists c rest,
      FormatValueToUtf8 ULONG64_MAX = String c rest
      /\ (c = "0"%char -> ULONG64_MAX = 0).
Proof.
  apply (FormatValueToUtf8_canonical ULONG64_MAX).
  unfold is_ULONG64, ULONG64_MAX. lia.
Defined.

(** ** The document that is written *)

(** X16.  The document [SaveDb] writes.  When the file cannot be created
    the status of the creation is returned and nothing is written.
    Otherwise the status is success and the top node is an element named
    objects with one child per record, in the order of enumeration; each
    child is an element named object whose attributes are the seven
    fields, all of them with a value, in the order tag, name,
    priorityclass, iopriorityplusone, backcolor, collapse, affinity; the
    name attribute holds the name, every other attribute a run of decimal
    digits, and the body is the comment. *)
Theorem SaveDb_document (createStatus : NTSTATUS) (T : PH_HASHTABLE) :
  (NT_SUCCESS createStatus = false ->
   SaveDb createStatus T = (createStatus, None))
  /\ (NT_SUCCESS createStatus = true ->
      exists children,
        SaveDb createStatus T
        = (STATUS_SUCCESS, Some (mxml_element "objects" [] children))
        /\ Forall2
             (fun node o =>
                exists attrs,
                  node = mxml_element "object" attrs
                                      [mxml_opaque (Comment o)]
                  /\ map fst attrs = field_names
                  /\ (forall a, In a attrs -> snd a <> None)
                  /\ In ("name"%string, Some (Name o)) attrs
                  /\ (forall field text,
                         In (field, Some text) attrs ->
                         field <> "name"%string ->
                         all_digits text = true))
             children (PhEnumHashtable T)).
Proof.
  unfold SaveDb. split; intros H; rewrite H; [reflexivity|].
  cbn [negb]. eexists; split; [reflexivity|].
  unfold PhEnumHashtable.
  induction (Entries T) as [|o r IH]; constructor; [|exact IH].
  eexists; split; [reflexivity|].
  split; [reflexivity|]. split.
  { intros a Ha. simpl in Ha.
    repeat (destruct Ha as [<-|Ha]; [discriminate|]). contradiction. }
  split; [simpl; tauto|].
  intros field text Ha N. simpl in Ha.
  unfold StringRefToUtf8 in Ha.
  repeat (destruct Ha as [Ha|Ha];
          [injection Ha as <- <-;
           first [ apply all_digits_format_digits; reflexivity
                 | exfalso; apply N; reflexivity ] |]).
  contradiction.
Qed.

Lemma SaveDb_document_witness :
  SaveDb STATUS_OBJECT_NAME_NOT_FOUND sample_store
  = (STATUS_OBJECT_NAME_NOT_FOUND, None)
  /\ exists children,
      SaveDb STATUS_SUCCESS sample_store
      = (STATUS_SUCCESS, Some (mxml_element "objects" [] children))
      /\ List.length children = 2%nat.
Proof.
  split.
  - apply (proj1 (SaveDb_document STATUS_OBJECT_NAME_NOT_FOUND
                                  sample_store)).
    reflexivity.
  - destruct (proj2 (SaveDb_document STATUS_SUCCESS sample_store) eq_refl)
      as (children & E & F).
    exists children. split; [exact E|].
    apply Forall2_length in F. exact F.
Defined.

(** ** Saving and loading in place *)

Lemma filter_none {A : Type} (P : A -> bool) (l : list A) :
  (forall a, In a l -> P a = false) -> filter P l = [].
Proof.
  induction l as [|x r IH]; intros H; simpl; [reflexivity|].
  rewrite (H x (or_introl eq_refl)). apply IH.
  intros a Ha; apply H; right; exact Ha.
Qed.

Lemma filter_all {A : Type} (P : A -> bool) (l : list A) :
  (forall a, In a l -> P a = true) -> filter P l = l.
Proof.
  induction l as [|x r IH]; intros H; simpl; [reflexivity|].
  rewrite (H x (or_introl eq_refl)), IH; [reflexivity|].
  intros a Ha; apply H; right; exact Ha.
Qed.

Lemma saved_override_fixes (o : DB_OBJECT) :
  DbObjectValid o -> apply_override (saved_override o) o = o.
Proof.
  intros V. destruct (saved_override_restores o V) as [_ E].
  transitivity (apply_override (saved_override o)
                               (new_object (Tag o) (Name o)));
    [reflexivity | exact E].
Qed.

Lemma perform_all_saved_in_place (entries : list DB_OBJECT) :
  distinct_keys entries -> Forall DbObjectValid entries ->
  perform_all (node_actions (map SaveDbNode entries)) entries = entries.
Proof.
  unfold distinct_keys.
  induction entries as [|e r IH]; intros D V; [reflexivity|].
  inversion V as [|? ? Ve Vr]; subst.
  simpl in D. apply NoDup_cons_iff in D as [N D].
  rewrite perform_all_cons. unfold node_actions. cbn [map].
  rewrite node_action_SaveDbNode.
  destruct (saved_override_restores e Ve) as [Et _]. rewrite Et.
  assert (Hr : forall a, In a (map node_action (map SaveDbNode r)) ->
                         hits e a = false).
  { intros a Ha. apply in_map_iff in Ha as [node [<- Hn]].
    apply in_map_iff in Hn as [x [<- Hx]].
    rewrite node_action_SaveDbNode.
    inversion Vr as [|]; subst; [contradiction|].
    assert (Vx : DbObjectValid x)
      by (eapply Forall_forall; [exact Vr | exact Hx]).
    destruct (saved_override_restores x Vx) as [Ex _]. rewrite Ex.
    cbn [hits].
    destruct (ObjectDbEqualFunction e (new_object (Tag x) (Name x)))
      eqn:E; [|reflexivity].
    exfalso. apply N. apply ObjectDbEqualFunction_key in E.
    replace (key_of e) with (key_of x) by (rewrite E; reflexivity).
    apply in_map. exact Hx. }
  cbn [filter hits]. unfold misses at 1. cbn [hits].
  replace (ObjectDbEqualFunction e (new_object (Tag e) (Name e)))
    with true
    by (symmetry; apply ObjectDbEqualFunction_key; reflexivity).
  cbn [negb].
  rewrite (filter_none (hits e)) by exact Hr.
  rewrite (filter_all (misses e))
    by (intros a Ha; unfold misses; rewrite (Hr a Ha); reflexivity).
  unfold apply_actions. cbn [fold_left apply_action].
  rewrite (saved_override_fixes e Ve).
  f_equal. apply IH; assumption.
Qed.

(** X17.  Saving and loading in place.  For a store with distinct keys
    and fields in the range of their types, loading the document
    [SaveDb] wrote into that same store succeeds and leaves the store
    exactly as it is. *)
Theorem SaveDb_LoadDb_in_place (T : PH_HASHTABLE) (createStatus : NTSTATUS)
        (file : DB_FILE) :
  KeyInvariant T ->
  Forall DbObjectValid (Entries T) ->
  NT_SUCCESS createStatus = true ->
  NT_SUCCESS (CreateFileStatus file) = true ->
  FileSize file <> Some 0 ->
  TopNode file = snd (SaveDb createStatus T) ->
  LoadDb file T = (STATUS_SUCCESS, T).
Proof.
  intros K V Hc Hs Hz Ht.
  unfold SaveDb in Ht. rewrite Hc in Ht. cbn [negb snd] in Ht.
  unfold LoadDb. rewrite Hs, Ht. cbn [negb].
  assert (E : LoadDbNodes (mxmlGetChildren (SaveDbDocument T)) T = T).
  { rewrite LoadDbNodes_perform_all. cbn [SaveDbDocument mxmlGetChildren].
    unfold PhEnumHashtable.
    rewrite perform_all_saved_in_place; auto.
    - destruct T; reflexivity.
    - apply KeyInvariant_distinct_keys; exact K. }
  cbn [is_element SaveDbDocument mxmlGetType negb] in *.
  destruct (FileSize file) as [[| |]|]; try congruence;
    rewrite E; reflexivity.
Qed.

Lemma SaveDb_LoadDb_in_place_witness :
  LoadDb (mkFile STATUS_SUCCESS (Some 300)
                 (snd (SaveDb STATUS_SUCCESS sample_store)))
         sample_store
  = (STATUS_SUCCESS, sample_store).
Proof.
  apply (SaveDb_LoadDb_in_place sample_store STATUS_SUCCESS
           (mkFile STATUS_SUCCESS (Some 300)
                   (snd (SaveDb STATUS_SUCCESS sample_store)))).
  - apply KeyInvariant_distinct_keys. unfold distinct_keys; simpl.
    repeat constructor; simpl; intuition discriminate.
  - repeat constructor; simpl; unfold ULONG_MAX, ULONG64_MAX; lia.
  - reflexivity.
  - reflexivity.
  - simpl; discriminate.
  - reflexivity.
Defined.

(** * Further properties of the attribute loop *)

(** X18.  The last attribute wins.  For each of the seven fields, when
    several attributes of an element match the name of the field up to
    letter case, the field is bound to the value of the last of them that
    has a value; attributes before it, and attributes without a value, do
    not count. *)
Theorem read_attrs_last_wins (name : string)
        (before after : list mxml_attr_t) (n v : string)
        (children : list mxml_node_t) (field : string) :
  In field field_names ->
  map_chars tolower n = field ->
  (forall a, In a after -> lower_name a <> field \/ snd a = None) ->
  (2 <= List.length (before ++ (n, Some v) :: after))%nat ->
  field_value field
    (read_attrs (mxml_element name (before ++ (n, Some v) :: after)
                              children))
  = Some v.
Proof.
  intros F E H L. unfold read_attrs, mxmlElementGetAttrCount.
  cbn [mxmlElementGetAttrs].
  replace (2 <=? Z.of_nat (List.length (before ++ (n, Some v) :: after)))
    with true by (symmetry; apply Z.leb_le; lia).
  change (fold_left read_attr (before ++ (n, Some v) :: after) no_fields)
    with (node_fields (before ++ (n, Some v) :: after) no_fields).
  rewrite node_fields_last_attr.
  unfold field_names in F; simpl in F.
  repeat (destruct F as [<-|F];
          [cbn [field_value String.eqb Ascii.eqb Bool.eqb f_tag f_name
                f_priorityClass f_ioPriorityPlusOne f_backColor f_collapse
                f_affinityMask no_fields];
           apply last_attr_last_wins; [exact E | exact H] |]).
  contradiction.
Qed.

Lemma read_attrs_last_wins_witness :
  field_value "backcolor"
    (read_attrs (mxml_element "object"
                   ([("tag", Some "1"); ("backcolor", Some "7")]
                    ++ ("BackColor", Some "9")
                    :: [("name", Some "a"); ("BACKCOLOR", None)]) [])%string)
  = Some "9"%string.
Proof.
  apply (read_attrs_last_wins "object"
           [("tag", Some "1"); ("backcolor", Some "7")]%string
           [("name", Some "a"); ("BACKCOLOR", None)]%string
           "BackColor" "9" [] "backcolor").
  - simpl; tauto.
  - reflexivity.
  - simpl. intros a [<-|[<-|[]]]; simpl;
      [left; discriminate | right; reflexivity].
  - simpl; lia.
Defined.

(** * The encoder loses nothing *)

(** X19.  The encoder is injective: two records with fields in the range
    of their types that are written as the same element are the same
    record, field by field. *)
Theorem SaveDbNode_injective (o1 o2 : DB_OBJECT) :
  DbObjectValid o1 -> DbObjectValid o2 ->
  SaveDbNode o1 = SaveDbNode o2 -> o1 = o2.
Proof.
  intros V1 V2 E.
  assert (A : node_action (SaveDbNode o1) = node_action (SaveDbNode o2))
    by (rewrite E; reflexivity).
  rewrite !node_action_SaveDbNode in A.
  destruct (saved_override_restores o1 V1) as [T1 R1].
  destruct (saved_override_restores o2 V2) as [T2 R2].
  rewrite T1, T2 in A.
  pose proof (f_equal (fun a : ACTION =>
                         match a with
                         | Some (l, ov) => apply_override ov l
                         | None => o1
                         end) A) as B.
  cbv beta iota in B. rewrite R1, R2 in B. exact B.
Qed.

Lemma SaveDbNode_injective_witness :
  mkObject 1 "a" "x" 2 0 4294967295 true 0
  = mkObject 1 "a" "x" 2 0 4294967295 true 0.
Proof.
  apply (SaveDbNode_injective
           (mkObject 1 "a" "x" 2 0 4294967295 true 0)
           (mkObject 1 "a" "x" 2 0 4294967295 true 0));
    [ repeat constructor; simpl; unfold ULONG_MAX, ULONG64_MAX; lia
    | repeat constructor; simpl; unfold ULONG_MAX, ULONG64_MAX; lia
    | reflexivity ].
Defined.
